(** * A shallow embedding of [webapp/www/orm.py]

    The ORM derives, through the metaclass [ModelMetaclass], the table name,
    the primary key, the list of ordinary fields and four SQL statements of
    every class that inherits from [Model]; instances are dictionaries read
    and written through attribute access.

    Python values are modelled by the inductive type [value]; the dictionary
    [attrs] of a class body, whose iteration order is the declaration order,
    by an association list; the dictionary [__mappings__] and the instances
    by [gmap string _]; exceptions, logging, the state used by default-value
    callables and the database behind the driver by a state-and-error monad.
    The driver and the attribute lookup of Python on a class, which comes
    before [__getattr__], are parameters of the development. *)

From Stdlib Require Import Ascii String ZArith.
From stdpp Require Import base option list strings pretty gmap fin_maps.

Local Open Scope string_scope.
Local Open Scope list_scope.
Local Open Scope Z_scope.

(** ** Python values, strings and formatting *)

(** The values that are stored on instances, bound to SQL statements and
    produced by defaults.  [VObj r] is any other object: it is truthy, is not
    callable, and [str] renders it as [r]. *)
Inductive value : Type :=
  | VNone
  | VBool (b : bool)
  | VInt (z : Z)
  | VStr (s : string)
  | VObj (repr : string).

(** [str(v)], which is also what ['%s' % v] prints. *)
Definition py_str (v : value) : string :=
  match v with
  | VNone => "None"
  | VBool true => "True"
  | VBool false => "False"
  | VInt z => pretty z
  | VStr s => s
  | VObj r => r
  end.

(** Truth value of a Python object, as tested by [if], [or] and [not]. *)
Definition truthy (v : value) : bool :=
  match v with
  | VNone => false
  | VBool b => b
  | VInt z => negb (z =? 0)
  | VStr s => negb (String.eqb s "")
  | VObj _ => true
  end.

(** Truth value of a [str]: only the empty string is false. *)
Definition str_truthy (s : string) : bool :=
  match s with
  | EmptyString => false
  | String _ _ => true
  end.

(** [v is None] *)
Definition is_None (v : value) : bool :=
  match v with
  | VNone => true
  | _ => false
  end.

(** [sep.join(l)] *)
Definition join (sep : string) (l : list string) : string := String.concat sep l.

(** [s.replace('?', '%s')] *)
Fixpoint replace_placeholder (s : string) : string :=
  match s with
  | EmptyString => EmptyString
  | String c s' =>
      if Ascii.eqb c "?"%char
      then "%s" +:+ replace_placeholder s'
      else String c (replace_placeholder s')
  end.

(** Does [sub] occur in [s]?  ([sub in s]) *)
Fixpoint contains (sub s : string) : bool :=
  String.prefix sub s ||
  match s with
  | EmptyString => false
  | String _ s' => contains sub s'
  end.

(** Number of occurrences of the character [c] in [s] ([s.count(c)]). *)
Fixpoint count_char (c : Ascii.ascii) (s : string) : nat :=
  match s with
  | EmptyString => 0%nat
  | String d s' => ((if Ascii.eqb d c then 1 else 0) + count_char c s')%nat
  end.

(** A text without question mark: no placeholder is read into it. *)
Definition no_placeholder (s : string) : Prop := count_char "?" s = 0%nat.

(** [create_args_string(num)]: the loop appends one ['?'] per element of
    [range(num)], and the list is joined with commas. *)
Definition create_args_string (num : nat) : string :=
  let L := fold_left (λ (L : list string) (_ : nat), L ++ ["?"]) (seq 0 num) [] in
  join "," L.

(** ** Exceptions, logging and the monad of effects *)

Inductive Exn : Type :=
  | RuntimeError (msg : string)
  | KeyError (key : string)
  | AttributeError (msg : string)
  | TypeError        (* its message depends on the version of Python *)
  | DriverError (msg : string).

Inductive Level : Type := DEBUG | INFO | WARNING.

(** A computation over a state [Σ] that returns a value or raises, and keeps
    the effects done before the exception. *)
Definition M (Σ A : Type) : Type := Σ → (Exn + A) * Σ.

Global Instance M_ret {Σ} : MRet (M Σ) := λ A (a : A) σ, (inr a, σ).

Global Instance M_bind {Σ} : MBind (M Σ) := λ A B (f : A → M Σ B) (m : M Σ A) σ,
  match m σ with
  | (inl e, σ') => (inl e, σ')
  | (inr a, σ') => f a σ'
  end.

Definition raise {Σ A} (e : Exn) : M Σ A := λ σ, (inl e, σ).

Definition gets {Σ A} (f : Σ → A) : M Σ A := λ σ, (inr (f σ), σ).

Definition modify {Σ} (f : Σ → Σ) : M Σ unit := λ σ, (inr (), f σ).

(** [list(map(f, l))] for an effectful [f]: the calls happen left to right. *)
Fixpoint mapM {Σ A B} (f : A → M Σ B) (l : list A) : M Σ (list B) :=
  match l with
  | [] => mret []
  | x :: l' => y ← f x; ys ← mapM f l'; mret (y :: ys)
  end.

(** ** The data model *)

(** A row of a [DictCursor] and the items of a [Model] instance (a [dict]
    subclass): column or attribute name to value. *)
Abbreviation Dict := (gmap string value).

(** What the driver's cursor holds after a statement was executed. *)
Record Cursor : Type := {
  cur_rows : list Dict;   (* the rows [fetchall()] returns *)
  rowcount : Z            (* [cur.rowcount] *)
}.

(** ** The connection pool *)

(** The keyword arguments that [create_pool] gives [aiomysql.create_pool]
    (the event loop, which it passes on as it is, is left out). *)
Record PoolArgs : Type := {
  host : value;
  port : value;
  user : value;
  password : value;
  db : value;
  charset : value;
  autocommit : value;
  maxsize : value;
  minsize : value
}.

(** What [create_pool] works on: the global [__pool] of the module, [None]
    while it is not bound, and the log.  [P] is the type of pools. *)
Record Process (P : Type) : Type := {
  __pool : option P;
  p_log : list (Level * string)
}.
Arguments __pool {P} _.
Arguments p_log {P} _.

(** [kw.get(k, dflt)] *)
Definition kw_get (kw : Dict) (k : string) (dflt : value) : value :=
  default dflt (kw !! k).

(** [kw[k]] *)
Definition kw_item {Σ} (kw : Dict) (k : string) : M Σ value :=
  match kw !! k with
  | Some v => mret v
  | None => raise (KeyError k)
  end.

(** [create_pool(loop, **kw)]; [aiomysql_create_pool] is the function of the
    driver, which returns a pool or raises.  The keyword arguments are
    evaluated from left to right. *)
Definition create_pool {P} (aiomysql_create_pool : PoolArgs → Exn + P) (kw : Dict)
    : M (Process P) unit :=
  modify (λ p, {| __pool := __pool p;
                  p_log := p_log p ++ [(INFO, "create database connection pool...")] |});;
  let host := kw_get kw "host" (VStr "localhost") in
  let port := kw_get kw "port" (VInt 3306) in
  user ← kw_item kw "user";
  password ← kw_item kw "password";
  db ← kw_item kw "db";
  let charset := kw_get kw "charset" (VStr "utf8") in
  let autocommit := kw_get kw "autocommit" (VBool true) in
  let maxsize := kw_get kw "maxsize" (VInt 10) in
  let minsize := kw_get kw "minsize" (VInt 1) in
  pool ← (λ p, (aiomysql_create_pool
                  {| host := host; port := port; user := user; password := password;
                     db := db; charset := charset; autocommit := autocommit;
                     maxsize := maxsize; minsize := minsize |}, p));
  modify (λ p, {| __pool := Some pool; p_log := p_log p |}).

Section ORM.

(** [G] is the state that default-value callables read and write (a clock, a
    counter, a random generator); [DB] is the state of the database behind the
    connection pool. *)
Context {G DB : Type}.

(** [cursor_execute sql args] stands for acquiring a connection from
    [__pool], opening a cursor and awaiting [cur.execute(sql, args)] of
    aiomysql: it either raises or leaves a cursor to read from. *)
Variable cursor_execute : string → list value → DB → (Exn + Cursor) * DB.

(** The [default] of a field: a plain object ([DVal VNone] is [None], that is
    no default) or a zero-argument callable. *)
Inductive Default : Type :=
  | DVal (v : value)
  | DCall (g : G → value * G).

(** [class Field]: [Field_init] is [Field.__init__(name, column_type,
    primary_key, default)]; [field_class] is [self.__class__.__name__].  The
    name is a string or [None], the primary-key mark a boolean. *)
Record Field : Type := Field_init {
  field_class : string;
  f_name : option string;
  column_type : string;
  primary_key : bool;
  f_default : Default
}.

(** [Field.__str__] *)
Definition Field_str (f : Field) : string :=
  "<" +:+ field_class f +:+ ", " +:+ column_type f +:+ ", "
      +:+ from_option id "None" (f_name f) +:+ ">".

(** [class StringField(Field)]; the keyword defaults of its [__init__] are
    [None], [False], [None] and ['varchar(100)']. *)
Definition StringField (name : option string) (primary_key : bool)
    (default : Default) (ddl : string) : Field :=
  Field_init "StringField" name ddl primary_key default.

(** An entry of the class body: a [Field] or any other object. *)
Inductive attr : Type :=
  | AField (f : Field)
  | AVal (v : value).

(** [attrs.get(k, None)] on the association list of a dictionary. *)
Fixpoint attrs_get (k : string) (attrs : list (string * attr)) : option attr :=
  match attrs with
  | [] => None
  | (k', v) :: attrs' => if String.eqb k' k then Some v else attrs_get k attrs'
  end.

(** The attributes that the metaclass stores on a mapped class.  The table
    name is kept as the text ['%s'] prints for it. *)
Record Schema : Type := {
  __mappings__ : gmap string Field;
  __table__ : string;
  __primary_key__ : string;
  __fields__ : list string;
  __select__ : string;
  __insert__ : string;
  __update__ : string;
  __delete__ : string
}.

(** The class that [type.__new__(cls, name, bases, attrs)] builds: [Model]
    itself keeps its attributes; for a mapped class, [attrs] is what is left
    of the class body once the fields are popped, and [schema] holds the
    entries that the metaclass then writes into the same dictionary, over any
    entry of the class body with one of their names. *)
Inductive PyClass : Type :=
  | PlainClass (name : string) (attrs : list (string * attr))
  | MappedClass (name : string) (attrs : list (string * attr)) (schema : Schema).

(** [class_attr cls key] is what the attribute lookup of Python finds for
    the name [key] on the class with the schema [cls], before it turns to
    [__getattr__]: an entry that the metaclass has written into the class
    ([__table__], [__primary_key__], ...), an attribute left of the class
    body, a method of [Model], or an attribute of [dict] or [object] (methods
    such as [items], [keys] and [update], and [__hash__], which is [None] on
    a [dict]).  It is [None] (of Rocq) when the class has no attribute of
    this name, which is the case of a field unless something else has its
    name, as the metaclass pops the fields.  The instances have nothing in
    their [__dict__], because [__setattr__] stores items. *)
Variable class_attr : Schema → string → option value.

(** The state of the process outside the objects at hand. *)
Record World : Type := {
  w_gen : G;
  w_db : DB;
  w_log : list (Level * string)
}.

(** [logging.debug], [logging.info], [logging.warn]: the record is appended
    to the log. *)
Definition logging (lvl : Level) (msg : string) : M World unit :=
  modify (λ w, {| w_gen := w_gen w; w_db := w_db w; w_log := w_log w ++ [(lvl, msg)] |}).

(** A call to the driver. *)
Definition driver (sql : string) (args : list value) : M World Cursor :=
  λ w, let '(r, db) := cursor_execute sql args (w_db w) in
       (r, {| w_gen := w_gen w; w_db := db; w_log := w_log w |}).

(** Calling a default-value callable. *)
Definition call (g : G → value * G) : M World value :=
  λ w, let '(v, gs) := g (w_gen w) in
       (inr v, {| w_gen := gs; w_db := w_db w; w_log := w_log w |}).

(** ** The data-access functions *)

(** [select(sql, args, size=None)].  [args or ()] passes an empty list as an
    empty tuple, which is the same list of values here; [if size:] holds for
    a size that is neither [None] nor 0. *)
Definition select (sql : string) (args : list value) (size : option nat)
    : M World (list Dict) :=
  logging INFO ("SQL: " +:+ sql);;
  cur ← driver (replace_placeholder sql) args;
  let rs :=
    match size with
    | Some (S n) => take (S n) (cur_rows cur)      (* [cur.fetchmany(size)] *)
    | _ => cur_rows cur                            (* [cur.fetchall()] *)
    end in
  logging INFO ("rows returned: " +:+ pretty (length rs));;
  mret rs.

(** [execute(sql, args)]; the [except] clause raises the exception again. *)
Definition execute (sql : string) (args : list value) : M World Z :=
  logging INFO ("SQL: " +:+ sql);;
  cur ← driver (replace_placeholder sql) args;
  let affected := rowcount cur in
  mret affected.

(** ** The metaclass *)

(** The three variables of the loop of [ModelMetaclass.__new__]. *)
Record Scan : Type := {
  mappings : gmap string Field;
  fields : list string;
  primaryKey : option string     (* [None] or the name of the primary key *)
}.

(** One iteration of [for k, v in attrs.items()].  [if primaryKey:] is the
    truth value of [None] or of a string. *)
Definition scan_item (st : Scan) (kv : string * attr) : M World Scan :=
  let '(k, v) := kv in
  match v with
  | AField v =>
      logging INFO ("found mapping: " +:+ k +:+ " ==> " +:+ Field_str v);;
      let mappings := <[k := v]> (mappings st) in
      if primary_key v then
        if from_option str_truthy false (primaryKey st) then
          raise (RuntimeError ("Duplicate primary key for field: " +:+ k))
        else
          mret {| mappings := mappings; fields := fields st; primaryKey := Some k |}
      else
        mret {| mappings := mappings; fields := fields st ++ [k];
                primaryKey := primaryKey st |}
  | AVal _ => mret st
  end.

(** The whole loop. *)
Fixpoint scan (attrs : list (string * attr)) (st : Scan) : M World Scan :=
  match attrs with
  | [] => mret st
  | kv :: attrs' => st' ← scan_item st kv; scan attrs' st'
  end.

(** [attrs.get('__table__', None) or name] *)
Definition table_name (name : string) (attrs : list (string * attr)) : string :=
  match attrs_get "__table__" attrs with
  | Some (AVal v) => if truthy v then py_str v else name
  | Some (AField f) => Field_str f
  | None => name
  end.

(** The back-quoted column: ['`%s`' % f]. *)
Definition escape (f : string) : string := "`" +:+ f +:+ "`".

(** [mappings.get(f).name or f]: the declared name unless it is [None] or
    empty.  Every [f] of [fields] is a key of [mappings]. *)
Definition name_or (mappings : gmap string Field) (f : string) : string :=
  match f_name <$> mappings !! f with
  | Some (Some (String c n)) => String c n
  | _ => f
  end.

(** [ModelMetaclass.__new__(cls, name, bases, attrs)] *)
Definition ModelMetaclass_new (name : string) (attrs : list (string * attr))
    : M World PyClass :=
  if String.eqb name "Model" then
    mret (PlainClass name attrs)
  else
    let tableName := table_name name attrs in
    logging INFO ("found model: " +:+ name +:+ "(table: " +:+ tableName +:+ ")");;
    st ← scan attrs {| mappings := ∅; fields := []; primaryKey := None |};
    match primaryKey st with
    | Some (String c k) =>
        let primaryKey := String c k in
        let mappings := mappings st in
        let fields := fields st in
        (* [for k in mappings.keys(): attrs.pop(k)] *)
        let attrs := filter (λ kv, mappings !! kv.1 = None) attrs in
        let escaped_fields := map escape fields in
        mret (MappedClass name attrs {|
          __mappings__ := mappings;
          __table__ := tableName;
          __primary_key__ := primaryKey;
          __fields__ := fields;
          __select__ :=
            "select `" +:+ primaryKey +:+ "`, " +:+ join "," escaped_fields
              +:+ " from `" +:+ tableName +:+ "`";
          __insert__ :=
            "insert into `" +:+ tableName +:+ "` (" +:+ join "," escaped_fields
              +:+ ", `" +:+ primaryKey +:+ "`) values ("
              +:+ create_args_string (length escaped_fields + 1) +:+ ")";
          __update__ :=
            "update `" +:+ tableName +:+ "` set "
              +:+ join "," (map (λ f, "`" +:+ name_or mappings f +:+ "`=?") fields)
              +:+ " where `" +:+ primaryKey +:+ "`=?";
          __delete__ :=
            "delete from `" +:+ tableName +:+ "` where `" +:+ primaryKey +:+ "`=?"
        |})
    | _ => raise (RuntimeError "Primary key not found.")
    end.

(** ** Instances of [Model] *)

(** The state of a method call: the items of [self] and the world. *)
Definition Obj : Type := Dict * World.

(** A function of the module called from a method. *)
Definition lift {A} (m : M World A) : M Obj A :=
  λ '(self, w), let '(r, w') := m w in (r, (self, w')).

(** [cls( **kw)], that is [Model.__init__(self, **kw)] on a new instance: a
    keyword named [self] meets the parameter of this name and the call
    raises [TypeError]; any other keywords become the items. *)
Definition Model_init (kw : Dict) : Exn + Dict :=
  match kw !! "self" with
  | Some _ => inl TypeError
  | None => inr kw
  end.

(** [Model.__getattr__(self, key)] *)
Definition __getattr__ (key : string) : M Obj value :=
  λ '(self, w),
    match self !! key with
    | Some v => (inr v, (self, w))
    | None =>
        (inl (AttributeError ("'Model' object has no attribute '" +:+ key +:+ "'")),
         (self, w))
    end.

(** [Model.__setattr__(self, key, value)] *)
Definition __setattr__ (key : string) (v : value) : M Obj unit :=
  modify (λ '(self, w), (<[key := v]> self, w)).

(** [getattr(self, key, None)] on an instance of the class with the schema
    [cls]: an attribute of the class is found first; only when there is none
    does Python call [__getattr__], and then an [AttributeError] gives the
    default. *)
Definition getattr (cls : Schema) (key : string) (dflt : value) : M Obj value :=
  λ σ,
    match class_attr cls key with
    | Some v => (inr v, σ)
    | None =>
        match __getattr__ key σ with
        | (inl (AttributeError _), σ') => (inr dflt, σ')
        | r => r
        end
    end.

(** [Model.getValue(self, key)] *)
Definition getValue (cls : Schema) (key : string) : M Obj value := getattr cls key VNone.

(** [Model.getValueOrDefault(self, key)], for an instance of the mapped class
    with schema [cls]. *)
Definition getValueOrDefault (cls : Schema) (key : string) : M Obj value :=
  v ← getattr cls key VNone;
  if is_None v then
    field ← match __mappings__ cls !! key with
            | Some field => mret field
            | None => raise (KeyError key)
            end;
    match f_default field with
    | DVal VNone => mret v
    | d =>
        v ← match d with
            | DCall g => lift (call g)
            | DVal c => mret c
            end;
        lift (logging DEBUG ("using default value for " +:+ key +:+ ": " +:+ py_str v));;
        __setattr__ key v;;
        mret v
    end
  else mret v.

(** [Model.find(cls, pk)] *)
Definition find (cls : Schema) (pk : value) : M World (option Dict) :=
  rs ← select (__select__ cls +:+ " where `" +:+ __primary_key__ cls +:+ "`=?") [pk] (Some 1%nat);
  match rs with
  | [] => mret None                      (* [len(rs) == 0] *)
  | r :: _ =>                            (* a new instance from [rs[0]] *)
      match Model_init r with
      | inl e => raise e
      | inr instance => mret (Some instance)
      end
  end.

(** [Model.save(self)] *)
Definition save (cls : Schema) : M Obj unit :=
  args ← mapM (getValueOrDefault cls) (__fields__ cls);
  v ← getValueOrDefault cls (__primary_key__ cls);
  let args := args ++ [v] in
  rows ← lift (execute (__insert__ cls) args);
  if bool_decide (rows ≠ 1) then
    lift (logging WARNING ("failded to insert record: affected rows: " +:+ pretty rows))
  else mret ().

(** ** The declarations as the statements below read them *)

(** Is the entry a field marked as primary key, or an ordinary field? *)
Definition is_pk (kv : string * attr) : bool :=
  match kv.2 with
  | AField f => primary_key f
  | AVal _ => false
  end.

Definition is_ordinary (kv : string * attr) : bool :=
  match kv.2 with
  | AField f => negb (primary_key f)
  | AVal _ => false
  end.

(** The names of the primary-key fields and of the ordinary fields, in
    declaration order. *)
Definition pk_names (attrs : list (string * attr)) : list string :=
  (filter (λ kv, is_pk kv = true) attrs).*1.

Definition ordinary_fields (attrs : list (string * attr)) : list string :=
  (filter (λ kv, is_ordinary kv = true) attrs).*1.

(** The field declared under the name [k] (the last one, should a list repeat
    a name, which a dictionary cannot). *)
Fixpoint declared (k : string) (attrs : list (string * attr)) : option Field :=
  match attrs with
  | [] => None
  | (k', v) :: attrs' =>
      match declared k attrs' with
      | Some f => Some f
      | None =>
          match v with
          | AField f => if String.eqb k' k then Some f else None
          | AVal _ => None
          end
      end
  end.

(** The column of a field: its declared name when there is one, else the name
    of the attribute. *)
Definition column_name (k : string) (f : Field) : string :=
  match f_name f with
  | Some (String c n) => String c n
  | _ => k
  end.

(** The names of a class body are identifiers, hence not empty, and a
    dictionary holds each key once. *)
Definition identifiers (attrs : list (string * attr)) : Prop :=
  Forall (λ kv, kv.1 ≠ "") attrs.

Definition is_dict (attrs : list (string * attr)) : Prop := NoDup attrs.*1.

(** The four statements of a class, if it has any. *)
Definition templates (r : Exn + PyClass) : option (string * string * string * string) :=
  match r with
  | inr (MappedClass _ _ s) => Some (__select__ s, __insert__ s, __update__ s, __delete__ s)
  | _ => None
  end.

(** The schema of a class, if it has one. *)
Definition schema_of (r : Exn + PyClass) : option Schema :=
  match r with
  | inr (MappedClass _ _ s) => Some s
  | _ => None
  end.

(** The ordinary fields with their descriptors, in declaration order. *)
Definition ordinary_decls (attrs : list (string * attr)) : list (string * Field) :=
  omap (λ kv, match kv.2 with
              | AField f => if primary_key f then None else Some (kv.1, f)
              | AVal _ => None
              end) attrs.

(** A statement refers to a column when it holds its back-quoted name. *)
Definition refers_to (sql col : string) : Prop := contains (escape col) sql = true.

(** The item of an instance under [key], [None] when it has none: what
    [getattr(self, key, None)] gives for a name that the class does not have. *)
Definition stored (self : Dict) (key : string) : value := default VNone (self !! key).

(** What [getattr(self, key, None)] gives for any name: the attribute of the
    class if there is one, else the item. *)
Definition attribute (cls : Schema) (self : Dict) (key : string) : value :=
  match class_attr cls key with
  | Some v => v
  | None => stored self key
  end.

(** The state after [getValueOrDefault] was called for each of [keys] in
    turn, whatever each call returned or raised. *)
Fixpoint reads (cls : Schema) (keys : list string) (σ : Obj) : Obj :=
  match keys with
  | [] => σ
  | k :: keys' => reads cls keys' (getValueOrDefault cls k σ).2
  end.

(** What the calls of [getValueOrDefault] for each of [keys] in turn return
    ([None] standing for a call that raises). *)
Fixpoint bound (cls : Schema) (keys : list string) (σ : Obj) : list value :=
  match keys with
  | [] => []
  | k :: keys' =>
      let r := getValueOrDefault cls k σ in
      match r.1 with inr v => v | inl _ => VNone end :: bound cls keys' r.2
  end.

(** The world after a default was resolved to [v] for [key]: the state [gs] of
    the callables, and one more record in the log. *)
Definition resolved (key : string) (v : value) (gs : G) (w : World) : World :=
  {| w_gen := gs; w_db := w_db w;
     w_log := w_log w ++ [(DEBUG, "using default value for " +:+ key +:+ ": " +:+ py_str v)] |}.

(** The names of a class that hold no question mark: the table, the
    attributes and the columns of the fields. *)
Definition plain_names (name : string) (attrs : list (string * attr)) : Prop :=
  no_placeholder (table_name name attrs) ∧
  ∀ k v, (k, v) ∈ attrs →
    no_placeholder k ∧ ∀ f, v = AField f → no_placeholder (column_name k f).

(** ** Example classes *)

(** The fields [id] (primary key, string), [name] (string) and [age]
    (integer, default 0). *)
Definition User_attrs : list (string * attr) :=
  [("id", AField (StringField None true (DVal VNone) "varchar(50)"));
   ("name", AField (StringField None false (DVal VNone) "varchar(100)"));
   ("age", AField (Field_init "IntegerField" None "bigint" false (DVal (VInt 0))))].

(** The same class with a table name and a column name of its own for the
    field [name]. *)
Definition Account_attrs : list (string * attr) :=
  [("__table__", AVal (VStr "accounts"));
   ("id", AField (StringField None true (DVal VNone) "varchar(50)"));
   ("name", AField (StringField (Some "user_name") false (DVal VNone) "varchar(100)"))].

End ORM.

(** ** Concrete worlds, classes and drivers

    The callables of these examples share a counter ([G] is [nat]); the
    database has no state of its own ([DB] is [unit]). *)

Definition world0 : @World nat unit := {| w_gen := 0%nat; w_db := (); w_log := [] |}.

(** A default like [next_id]: it returns the counter and increments it. *)
Definition next_id : nat → value * nat := λ n, (VInt (Z.of_nat n), S n).

(** A callable that returns [None] the first time and 5 afterwards. *)
Definition late_default : nat → value * nat :=
  λ n, (match n with O => VNone | S _ => VInt 5 end, S n).

Definition Order_attrs : list (string * @attr nat) :=
  [("id", AField (StringField None true (DCall next_id) "varchar(50)"));
   ("note", AField (StringField None false (DVal (VStr "n/a")) "varchar(100)"))].

Definition Session_attrs : list (string * @attr nat) :=
  [("id", AField (StringField None true (DVal VNone) "varchar(50)"));
   ("token", AField (StringField None false (DCall late_default) "varchar(100)"))].

Definition Tag_attrs : list (string * @attr nat) :=
  [("id", AField (StringField None true (DVal VNone) "varchar(50)"))].

Definition Guest_attrs : list (string * @attr nat) :=
  [("name", AField (StringField None false (DVal VNone) "varchar(100)"))].

Definition Pair_attrs : list (string * @attr nat) :=
  [("left", AField (StringField None true (DVal VNone) "varchar(50)"));
   ("name", AField (StringField None false (DVal VNone) "varchar(100)"));
   ("right", AField (StringField None true (DVal VNone) "varchar(50)"))].

(** Drivers: one finds no row and changes none, one finds two rows. *)
Definition no_rows : string → list value → unit → (Exn + Cursor) * unit :=
  λ _ _ db, (inr {| cur_rows := []; rowcount := 0 |}, db).

Definition two_rows : string → list value → unit → (Exn + Cursor) * unit :=
  λ _ _ db, (inr {| cur_rows := [{["id" := VStr "a"]}; {["id" := VStr "b"]}];
                    rowcount := 2 |}, db).

(** A class whose primary key was put under the empty name. *)
Definition Ghost_attrs : list (string * @attr nat) :=
  [("", AField (StringField None true (DVal VNone) "varchar(50)"));
   ("name", AField (StringField None false (DVal VNone) "varchar(100)"))].

(** A class with a field named as a method of [dict]. *)
Definition Cart_attrs : list (string * @attr nat) :=
  [("id", AField (StringField None true (DVal VNone) "varchar(50)"));
   ("items", AField (StringField None false (DVal (VStr "n/a")) "varchar(100)"))].

(** A class with a field named as an attribute that is [None] on a [dict]. *)
Definition Digest_attrs : list (string * @attr nat) :=
  [("id", AField (StringField None true (DVal VNone) "varchar(50)"));
   ("__hash__", AField (StringField None false (DVal (VStr "h")) "varchar(100)"))].

(** Attributes that the lookup of Python finds on every mapped class: the
    entries that the metaclass writes into the class (the strings as they
    are, the dictionary and the list as objects), the methods that [Model]
    defines and the methods of [dict], written as objects, and [__hash__],
    which a [dict] has as [None].  The lookup of the examples finds these and
    nothing under the other names of the fields and items of the examples
    ([id], [name], [age], [note], [token], [email], [extra], [self]). *)
Definition Model_methods : list string :=
  ["__init__"; "__getattr__"; "__setattr__"; "getValue"; "getValueOrDefault";
   "find"; "save"].

Definition dict_methods : list string :=
  ["clear"; "copy"; "fromkeys"; "get"; "items"; "keys"; "pop"; "popitem";
   "setdefault"; "update"; "values"].

Definition example_attr (cls : @Schema nat) (key : string) : option value :=
  if decide (key = "__table__") then Some (VStr (__table__ cls))
  else if decide (key = "__primary_key__") then Some (VStr (__primary_key__ cls))
  else if decide (key = "__select__") then Some (VStr (__select__ cls))
  else if decide (key = "__insert__") then Some (VStr (__insert__ cls))
  else if decide (key = "__update__") then Some (VStr (__update__ cls))
  else if decide (key = "__delete__") then Some (VStr (__delete__ cls))
  else if decide (key ∈ ["__mappings__"; "__fields__"])
       then Some (VObj ("<" +:+ key +:+ ">"))
  else if decide (key = "__hash__") then Some VNone
  else if decide (key ∈ Model_methods ++ dict_methods)
       then Some (VObj ("<bound method " +:+ key +:+ ">"))
  else None.

(** A class with a field named [self], and a driver whose only row has the
    columns of this class. *)
Definition Mirror_attrs : list (string * @attr nat) :=
  [("id", AField (StringField None true (DVal VNone) "varchar(50)"));
   ("self", AField (StringField None false (DVal VNone) "varchar(100)"))].

Definition self_row : string → list value → unit → (Exn + Cursor) * unit :=
  λ _ _ db, (inr {| cur_rows := [{["id" := VStr "a"; "self" := VStr "me"]}];
                    rowcount := 1 |}, db).

(** A driver that has lost its connection, and one that changes one row. *)
Definition lost_connection : string → list value → unit → (Exn + Cursor) * unit :=
  λ _ _ db, (inl (DriverError "Lost connection to MySQL server"), db).

Definition one_row_affected : string → list value → unit → (Exn + Cursor) * unit :=
  λ _ _ db, (inr {| cur_rows := []; rowcount := 1 |}, db).

(** A driver function that gives its arguments as the pool, and settings. *)
Definition pool_of_args : PoolArgs → Exn + PoolArgs := inr.

Definition settings : Dict :=
  {["user" := VStr "www"; "password" := VStr "secret"; "db" := VStr "awesome";
    "port" := VInt 3307]}.

Definition process0 : Process PoolArgs := {| __pool := None; p_log := [] |}.

(** * Properties *)

Section ORM_properties.

Context {G DB : Type}.
Variable cursor_execute : string → list value → DB → (Exn + Cursor) * DB.
Variable class_attr : @Schema G → string → option value.

Implicit Types (attrs : list (string * @attr G)) (st : @Scan G) (w : @World G DB).

Ltac munfold :=
  unfold mbind, M_bind, mret, M_ret, raise, gets, modify, logging, lift in *.

(** ** Strings *)

Lemma append_cons c (s t : string) : String c s +:+ t = String c (s +:+ t).
Proof. reflexivity. Qed.

Lemma append_assoc (s t u : string) : (s +:+ t) +:+ u = s +:+ t +:+ u.
Proof.
  induction s as [|c s IH]; [done|].
  by rewrite !append_cons, IH.
Qed.

Lemma append_nil_r (s : string) : s +:+ "" = s.
Proof.
  induction s as [|c s IH]; [done|].
  by rewrite append_cons, IH.
Qed.

Lemma prefix_append (s t : string) : String.prefix s (s +:+ t) = true.
Proof.
  induction s as [|c s IH]; [by destruct t|].
  rewrite append_cons. simpl. destruct (ascii_dec c c); [exact IH|congruence].
Qed.

Lemma contains_unfold (sub s : string) :
  contains sub s =
  String.prefix sub s || match s with
                         | EmptyString => false
                         | String _ s' => contains sub s'
                         end.
Proof. by destruct s. Qed.

Lemma contains_append (sub pre post : string) :
  contains sub (pre +:+ sub +:+ post) = true.
Proof.
  induction pre as [|c pre IH].
  - rewrite contains_unfold.
    change ("" +:+ sub +:+ post) with (sub +:+ post). by rewrite prefix_append.
  - rewrite append_cons, contains_unfold, IH. apply orb_true_r.
Qed.

Lemma contains_intro (sql col pre post : string) :
  sql = pre +:+ escape col +:+ post → refers_to sql col.
Proof. intros ->. apply contains_append. Qed.

Lemma join_cons2 sep x y l : join sep (x :: y :: l) = x +:+ sep +:+ join sep (y :: l).
Proof. reflexivity. Qed.

Lemma join_elem_of sep x (l : list string) :
  x ∈ l → ∃ pre post, join sep l = pre +:+ x +:+ post.
Proof.
  induction l as [|y l IH]; intros Hin; [by apply elem_of_nil in Hin|].
  apply elem_of_cons in Hin as [->|Hin].
  - destruct l as [|z l].
    + exists "", "". simpl. by rewrite append_nil_r.
    + exists "", (sep +:+ join sep (z :: l)). by rewrite join_cons2.
  - destruct (IH Hin) as (pre & post & Heq).
    destruct l as [|z l]; [by apply elem_of_nil in Hin|].
    exists (y +:+ sep +:+ pre), post.
    by rewrite join_cons2, Heq, !append_assoc.
Qed.

Lemma count_char_append c (s t : string) :
  count_char c (s +:+ t) = (count_char c s + count_char c t)%nat.
Proof.
  induction s as [|d s IH]; [done|].
  rewrite append_cons. simpl. rewrite IH. lia.
Qed.

(** The loop of [create_args_string] builds [num] question marks. *)
Lemma create_args_string_replicate num :
  create_args_string num = join "," (replicate num "?").
Proof.
  unfold create_args_string. f_equal.
  assert (∀ (l : list nat) (acc : list string),
            fold_left (λ (L : list string) (_ : nat), L ++ ["?"]) l acc
            = acc ++ replicate (length l) "?") as H.
  { induction l as [|n l IH]; intros acc; simpl; [by rewrite app_nil_r|].
    rewrite IH, <- app_assoc. done. }
  by rewrite H, length_seq.
Qed.

Lemma count_char_create_args_string num :
  count_char "?" (create_args_string num) = num.
Proof.
  rewrite create_args_string_replicate.
  induction num as [|[|n] IH]; [done..|].
  change (replicate (S (S n)) "?") with ("?" :: "?" :: replicate n "?").
  rewrite join_cons2, !count_char_append.
  change ("?" :: replicate n "?") with (replicate (S n) "?"). rewrite IH. done.
Qed.

(** ** The loop of the metaclass *)

Lemma scan_item_val st k v w : scan_item st (k, AVal v) w = (inr st, w).
Proof. reflexivity. Qed.

Lemma scan_cons attrs st kv w :
  scan (kv :: attrs) st w =
  match scan_item st kv w with
  | (inl e, w') => (inl e, w')
  | (inr st', w') => scan attrs st' w'
  end.
Proof. reflexivity. Qed.

Lemma scan_item_field st k f w :
  scan_item st (k, AField f) w =
  let w' := {| w_gen := w_gen w; w_db := w_db w;
               w_log := w_log w ++ [(INFO, "found mapping: " +:+ k +:+ " ==> " +:+ Field_str f)] |} in
  if primary_key f then
    if from_option str_truthy false (primaryKey st)
    then (inl (RuntimeError ("Duplicate primary key for field: " +:+ k)), w')
    else (inr {| mappings := <[k := f]> (mappings st); fields := fields st;
                 primaryKey := Some k |}, w')
  else (inr {| mappings := <[k := f]> (mappings st); fields := fields st ++ [k];
               primaryKey := primaryKey st |}, w').
Proof.
  unfold scan_item. munfold. simpl.
  destruct (primary_key f); [destruct (from_option str_truthy false (primaryKey st))|];
    reflexivity.
Qed.

Lemma ordinary_fields_cons k v attrs :
  ordinary_fields ((k, v) :: attrs) =
  if is_ordinary (k, v) then k :: ordinary_fields attrs else ordinary_fields attrs.
Proof.
  unfold ordinary_fields. destruct (is_ordinary (k, v)) eqn:E.
  - by rewrite filter_cons_True.
  - rewrite filter_cons_False; [done | by rewrite E].
Qed.

Lemma pk_names_cons k v attrs :
  pk_names ((k, v) :: attrs) =
  if is_pk (k, v) then k :: pk_names attrs else pk_names attrs.
Proof.
  unfold pk_names. destruct (is_pk (k, v)) eqn:E.
  - by rewrite filter_cons_True.
  - rewrite filter_cons_False; [done | by rewrite E].
Qed.

(** The ordinary fields are collected in declaration order. *)
Lemma scan_fields attrs : ∀ st w st' w',
  scan attrs st w = (inr st', w') →
  fields st' = fields st ++ ordinary_fields attrs.
Proof.
  induction attrs as [|[k v] attrs IH]; intros st w st' w' H.
  - injection H as <- _. by rewrite app_nil_r.
  - rewrite scan_cons in H. rewrite ordinary_fields_cons.
    destruct v as [f|v].
    + rewrite scan_item_field in H. unfold is_ordinary. simpl in *.
      destruct (primary_key f); simpl.
      * destruct (from_option str_truthy false (primaryKey st)); [discriminate|].
        apply IH in H. exact H.
      * apply IH in H. simpl in H. by rewrite <- app_assoc in H.
    + rewrite scan_item_val in H. apply IH in H. exact H.
Qed.

(** [mappings] ends up holding every declared field under its name. *)
Lemma scan_mappings attrs : ∀ st w st' w',
  scan attrs st w = (inr st', w') →
  ∀ k, mappings st' !! k =
       match declared k attrs with
       | Some f => Some f
       | None => mappings st !! k
       end.
Proof.
  induction attrs as [|[k' v] attrs IH]; intros st w st' w' H k.
  - by injection H as <- _.
  - rewrite scan_cons in H. simpl.
    destruct v as [f|v].
    + rewrite scan_item_field in H. simpl in H.
      assert (∃ st1 w1, scan attrs st1 w1 = (inr st', w') ∧
                        mappings st1 = <[k' := f]> (mappings st)) as (st1 & w1 & H1 & Hm).
      { destruct (primary_key f);
          [destruct (from_option str_truthy false (primaryKey st)); [discriminate|]|];
          eauto. }
      rewrite (IH _ _ _ _ H1 k), Hm.
      destruct (declared k attrs); [done|].
      destruct (String.eqb_spec k' k) as [->|Hne].
      * by rewrite lookup_insert_eq.
      * by rewrite lookup_insert_ne.
    + rewrite scan_item_val in H. rewrite (IH _ _ _ _ H k).
      by destruct (declared k attrs).
Qed.

Lemma not_truthy_None (o : option string) :
  from_option str_truthy false o = false → o ≠ Some "" → o = None.
Proof. destruct o as [[|c s]|]; simpl; congruence. Qed.

Lemma truthy_not_None (o : option string) :
  from_option str_truthy false o = true → o ≠ None.
Proof. destruct o; simpl; congruence. Qed.

(** What the loop does with the primary keys, when no name is empty: it keeps
    the single one, and stops at the second one. *)
Lemma scan_primary_key attrs : ∀ st w,
  identifiers attrs → primaryKey st ≠ Some "" →
  match (scan attrs st w).1 with
  | inr st' =>
      (pk_names attrs = [] ∧ primaryKey st' = primaryKey st) ∨
      (primaryKey st = None ∧ ∃ k, pk_names attrs = [k] ∧ primaryKey st' = Some k)
  | inl e =>
      ∃ k, e = RuntimeError ("Duplicate primary key for field: " +:+ k) ∧
           ((primaryKey st = None ∧ pk_names attrs !! 1%nat = Some k) ∨
            (primaryKey st ≠ None ∧ pk_names attrs !! 0%nat = Some k))
  end.
Proof.
  induction attrs as [|[k v] attrs IH]; intros st w Hid Hst.
  - simpl. by left.
  - apply Forall_cons in Hid as [Hk Hid]. simpl in Hk.
    rewrite scan_cons, pk_names_cons. destruct v as [f|v].
    + rewrite scan_item_field. unfold is_pk. simpl.
      destruct (primary_key f).
      * destruct (from_option str_truthy false (primaryKey st)) eqn:Et; simpl.
        { exists k. split; [done|]. right. split; [|done]. by apply truthy_not_None. }
        apply not_truthy_None in Et; [|done].
        match goal with |- context [scan attrs ?st1 ?w1] =>
          specialize (IH st1 w1 Hid); destruct (scan attrs st1 w1) as [[e|st'] w'] end;
          simpl in *.
        { destruct IH as (k' & -> & [[? _]|[_ Hk']]); [congruence|done|].
          exists k'. split; [done|]. by left. }
        destruct IH as [[Hn Hp]|[? _]]; [congruence| |done].
        right. split; [done|]. exists k. by rewrite Hn.
      * match goal with |- context [scan attrs ?st1 ?w1] =>
          specialize (IH st1 w1 Hid Hst); destruct (scan attrs st1 w1) as [[e|st'] w'] end;
          simpl in *; exact IH.
    + rewrite scan_item_val. unfold is_pk. simpl. by apply IH.
Qed.

(** The primary key that the loop keeps is one of the declared ones. *)
Lemma scan_pk_declared attrs : ∀ st w st' w',
  scan attrs st w = (inr st', w') →
  primaryKey st' = primaryKey st ∨
  ∃ k, primaryKey st' = Some k ∧ k ∈ pk_names attrs.
Proof.
  induction attrs as [|[k v] attrs IH]; intros st w st' w' H.
  - injection H as <- _. by left.
  - rewrite scan_cons in H. rewrite pk_names_cons. destruct v as [f|v].
    + rewrite scan_item_field in H. unfold is_pk. simpl in *.
      destruct (primary_key f).
      * destruct (from_option str_truthy false (primaryKey st)); [discriminate|].
        apply IH in H as [H|(k' & H & Hin)]; simpl in H.
        -- right. exists k. split; [done|]. apply list_elem_of_here.
        -- right. exists k'. split; [done|]. by apply list_elem_of_further.
      * apply IH in H. exact H.
    + rewrite scan_item_val in H. apply IH in H. exact H.
Qed.

(** The schema that the metaclass gives a mapped class, read off the
    declarations. *)
Lemma ModelMetaclass_new_inv name attrs w s :
  schema_of (ModelMetaclass_new name attrs w).1 = Some s →
  ∃ pk m,
    pk ≠ "" ∧ pk ∈ pk_names attrs ∧ (∀ k, m !! k = declared k attrs) ∧
    let T := table_name name attrs in
    let fs := ordinary_fields attrs in
    s = {|
      __mappings__ := m;
      __table__ := T;
      __primary_key__ := pk;
      __fields__ := fs;
      __select__ := "select `" +:+ pk +:+ "`, " +:+ join "," (map escape fs)
                      +:+ " from `" +:+ T +:+ "`";
      __insert__ := "insert into `" +:+ T +:+ "` (" +:+ join "," (map escape fs)
                      +:+ ", `" +:+ pk +:+ "`) values ("
                      +:+ create_args_string (length fs + 1) +:+ ")";
      __update__ := "update `" +:+ T +:+ "` set "
                      +:+ join "," (map (λ f, "`" +:+ name_or m f +:+ "`=?") fs)
                      +:+ " where `" +:+ pk +:+ "`=?";
      __delete__ := "delete from `" +:+ T +:+ "` where `" +:+ pk +:+ "`=?"
    |}.
Proof.
  unfold ModelMetaclass_new. destruct (String.eqb name "Model"); [done|].
  munfold. simpl.
  match goal with |- context [scan attrs ?st0 ?w0] =>
    destruct (scan attrs st0 w0) as [[e|st] w1] eqn:Hscan end; [done|].
  pose proof (scan_fields _ _ _ _ _ Hscan) as Hf.
  pose proof (scan_mappings _ _ _ _ _ Hscan) as Hm.
  pose proof (scan_pk_declared _ _ _ _ _ Hscan) as Hp. simpl in Hf, Hm, Hp.
  destruct (primaryKey st) as [[|c pk]|] eqn:Epk; try done.
  simpl. intros [= <-]. exists (String c pk), (mappings st).
  rewrite length_map, Hf. split; [done|]. split; [|split; [|done]].
  - destruct Hp as [?|(k & [= <-] & Hin)]; [done|exact Hin].
  - intros k. rewrite Hm, lookup_empty. by destruct (declared k attrs).
Qed.

Lemma pk_names_identifiers attrs k :
  identifiers attrs → k ∈ pk_names attrs → k ≠ "".
Proof.
  intros Hid Hin. unfold pk_names in Hin.
  apply list_elem_of_fmap in Hin as ([k' v] & -> & Hin).
  apply list_elem_of_filter in Hin as [_ Hin].
  eapply Forall_forall in Hid; [apply Hid|exact Hin].
Qed.

Lemma declared_elem_of k attrs f : declared k attrs = Some f → k ∈ attrs.*1.
Proof.
  revert f. induction attrs as [|[k' v] attrs IH]; intros f; simpl; [done|].
  destruct (declared k attrs) as [f'|].
  - intros _. apply list_elem_of_further. by eapply IH.
  - destruct v as [f'|v]; [|done].
    destruct (String.eqb_spec k' k) as [->|]; [|done].
    intros _. apply list_elem_of_here.
Qed.

(** In a dictionary the field declared under a name is the one found there. *)
Lemma declared_is_dict k f attrs :
  is_dict attrs → (k, AField f) ∈ attrs → declared k attrs = Some f.
Proof.
  unfold is_dict. induction attrs as [|[k' v] attrs IH]; intros Hnd Hin.
  - by apply elem_of_nil in Hin.
  - rewrite fmap_cons in Hnd. apply NoDup_cons in Hnd as [Hk' Hnd]. simpl in *.
    apply elem_of_cons in Hin as [[= <- <-]|Hin].
    + destruct (declared k attrs) as [f'|] eqn:E.
      * apply declared_elem_of in E. done.
      * by rewrite String.eqb_refl.
    + by rewrite (IH Hnd Hin).
Qed.

Lemma ordinary_decls_fst attrs : (ordinary_decls attrs).*1 = ordinary_fields attrs.
Proof.
  induction attrs as [|[k v] attrs IH]; [done|].
  rewrite ordinary_fields_cons. unfold ordinary_decls, is_ordinary in *. simpl.
  destruct v as [f|v]; simpl; [|done].
  destruct (primary_key f); simpl; [done|]. by f_equal.
Qed.

Lemma ordinary_decls_elem_of k f attrs :
  (k, f) ∈ ordinary_decls attrs ↔ (k, AField f) ∈ attrs ∧ primary_key f = false.
Proof.
  unfold ordinary_decls. rewrite list_elem_of_omap. split.
  - intros ([k' [f'|v]] & Hin & Heq); simpl in Heq; [|done].
    destruct (primary_key f') eqn:E; [done|]. by injection Heq as -> ->.
  - intros [Hin Hpk]. exists (k, AField f). simpl. by rewrite Hpk.
Qed.

(** [mappings.get(f).name or f] is the column of the field declared as [f]. *)
Lemma name_or_column_name (m : gmap string (@Field G)) attrs k f :
  (∀ k, m !! k = declared k attrs) → is_dict attrs → (k, AField f) ∈ attrs →
  name_or m k = column_name k f.
Proof.
  intros Hm Hd Hin. unfold name_or, column_name.
  by rewrite Hm, (declared_is_dict _ _ _ Hd Hin).
Qed.

(** With one primary key, and no empty name, the class is built. *)
Lemma metaclass_accepts name attrs w pk :
  name ≠ "Model" → identifiers attrs → pk_names attrs = [pk] →
  ∃ attrs' s,
    (ModelMetaclass_new name attrs w).1 = inr (MappedClass name attrs' s) ∧
    __primary_key__ s = pk.
Proof.
  intros Hname Hid Hn. apply String.eqb_neq in Hname.
  unfold ModelMetaclass_new. rewrite Hname. munfold. simpl.
  match goal with |- context [scan attrs ?st0 ?w0] =>
    pose proof (scan_primary_key attrs st0 w0 Hid ltac:(done)) as Hpk;
    destruct (scan attrs st0 w0) as [[e|st] w1] end; simpl in *.
  - destruct Hpk as (k & _ & [[_ Hk]|[? _]]); [|done]. by rewrite Hn in Hk.
  - destruct Hpk as [[Hn' _]|[_ (k & Hn' & Hp)]]; [congruence|].
    rewrite Hn in Hn'. injection Hn' as <-. rewrite Hp.
    assert (pk ≠ "") as Hk.
    { apply (pk_names_identifiers attrs); [done|]. rewrite Hn. apply list_elem_of_here. }
    destruct pk as [|c pk]; [done|]. simpl. by eexists _, _.
Qed.

(** The loop and the metaclass compute the same result in every world. *)
Lemma scan_world attrs : ∀ st w1 w2, (scan attrs st w1).1 = (scan attrs st w2).1.
Proof.
  induction attrs as [|[k v] attrs IH]; intros st w1 w2; [done|].
  rewrite !scan_cons. destruct v as [f|v].
  - rewrite !scan_item_field. simpl.
    destruct (primary_key f);
      [destruct (from_option str_truthy false (primaryKey st)); [done|]|]; apply IH.
  - rewrite !scan_item_val. apply IH.
Qed.

Lemma ModelMetaclass_new_world name attrs w1 w2 :
  (ModelMetaclass_new name attrs w1).1 = (ModelMetaclass_new name attrs w2).1.
Proof.
  unfold ModelMetaclass_new. destruct (String.eqb name "Model"); [done|].
  munfold. simpl.
  match goal with |- (match scan attrs ?st0 ?wa with _ => _ end).1 =
                     (match scan attrs ?st0 ?wb with _ => _ end).1 =>
    pose proof (scan_world attrs st0 wa wb) as H;
    destruct (scan attrs st0 wa) as [[e1|st1] wa'], (scan attrs st0 wb) as [[e2|st2] wb'];
    simpl in H; try done end.
  - by injection H as ->.
  - injection H as ->. by destruct (primaryKey st2) as [[|c k]|].
Qed.

(** ** The metaclass accepts exactly the classes with one primary key *)

(** C1.  For a mapped class (any class but [Model] itself) whose attribute
    names are identifiers: with exactly one field marked as primary key the
    metaclass returns the class with its schema; with none it raises
    [RuntimeError('Primary key not found.')]; with two or more it raises
    [RuntimeError('Duplicate primary key for field: k')], [k] being the second
    of them.  This [RuntimeError] is the schema error of the specification.
    When it is raised no class is returned, so none is registered. *)
Theorem single_primary_key name attrs w :
  name ≠ "Model" → identifiers attrs →
  (length (pk_names attrs) = 1%nat →
     ∃ attrs' schema,
       (ModelMetaclass_new name attrs w).1 = inr (MappedClass name attrs' schema) ∧
       pk_names attrs = [__primary_key__ schema]) ∧
  (length (pk_names attrs) = 0%nat →
     (ModelMetaclass_new name attrs w).1 = inl (RuntimeError "Primary key not found.")) ∧
  ((2 ≤ length (pk_names attrs))%nat →
     ∃ k, pk_names attrs !! 1%nat = Some k ∧
       (ModelMetaclass_new name attrs w).1 =
       inl (RuntimeError ("Duplicate primary key for field: " +:+ k))).
Proof.
  intros Hname Hid. apply String.eqb_neq in Hname.
  unfold ModelMetaclass_new. rewrite Hname. munfold. simpl.
  match goal with |- context [scan attrs ?st0 ?w0] =>
    pose proof (scan_primary_key attrs st0 w0 Hid ltac:(done)) as Hpk;
    destruct (scan attrs st0 w0) as [[e|st] w1] end; simpl in *.
  - destruct Hpk as (k & -> & [[_ Hk]|[? _]]); [|done].
    apply lookup_lt_Some in Hk as Hlen.
    split; [lia|]. split; [lia|]. intros _. by exists k.
  - destruct Hpk as [[Hn Hp]|[_ (k & Hn & Hp)]]; rewrite Hn, Hp; simpl.
    + split; [lia|]. split; [done|lia].
    + split; [|split; [done|lia]]. intros _.
      assert (k ≠ "") as Hk.
      { apply (pk_names_identifiers attrs); [done|]. rewrite Hn. apply list_elem_of_here. }
      destruct k as [|c k]; [done|]. simpl. by eexists _, _.
Qed.

(** ** The four statements *)

(** C3, as the code has it.  For every mapped class and every ordinary field
    of it: the update statement refers to the field by its back-quoted column
    name, which is the declared name of the descriptor when there is one and
    the name of the attribute otherwise; the select and the insert statement
    do so when the descriptor declares no name of its own; the delete
    statement names the table and the primary key only. *)
Theorem statements_refer_to_columns name attrs w s k f :
  schema_of (ModelMetaclass_new name attrs w).1 = Some s →
  is_dict attrs → (k, AField f) ∈ attrs → primary_key f = false →
  refers_to (__update__ s) (column_name k f) ∧
  (column_name k f = k →
     refers_to (__select__ s) (column_name k f) ∧
     refers_to (__insert__ s) (column_name k f)) ∧
  __delete__ s =
    "delete from `" +:+ __table__ s +:+ "` where `" +:+ __primary_key__ s +:+ "`=?".
Proof.
  intros Hs Hd Hin Hpk.
  apply ModelMetaclass_new_inv in Hs as (pk & m & _ & _ & Hm & ->). simpl.
  assert (k ∈ ordinary_fields attrs) as Hk.
  { rewrite <- ordinary_decls_fst. apply list_elem_of_fmap. exists (k, f).
    split; [done|]. by apply ordinary_decls_elem_of. }
  split; [|split; [|done]].
  - pose proof (name_or_column_name m attrs k f Hm Hd Hin) as Hcol.
    apply (list_elem_of_fmap_2 (λ f, "`" +:+ name_or m f +:+ "`=?")) in Hk.
    apply (join_elem_of ",") in Hk as (pre & post & Hj).
    rewrite <- Hcol. change (map ?g ?l) with (g <$> l). rewrite Hj.
    apply (contains_intro _ _
             ("update `" +:+ table_name name attrs +:+ "` set " +:+ pre)
             ("=?" +:+ post +:+ " where `" +:+ pk +:+ "`=?")).
    unfold escape. by rewrite !append_assoc.
  - intros ->.
    apply (list_elem_of_fmap_2 escape) in Hk.
    apply (join_elem_of ",") in Hk as (pre & post & Hj).
    change (map ?g ?l) with (g <$> l). rewrite Hj. split.
    + apply (contains_intro _ _
               ("select `" +:+ pk +:+ "`, " +:+ pre)
               (post +:+ " from `" +:+ table_name name attrs +:+ "`")).
      by rewrite !append_assoc.
    + apply (contains_intro _ _
               ("insert into `" +:+ table_name name attrs +:+ "` (" +:+ pre)
               (post +:+ ", `" +:+ pk +:+ "`) values ("
                  +:+ create_args_string (length (ordinary_fields attrs) + 1) +:+ ")")).
      by rewrite !append_assoc.
Qed.

(** C4.  The update statement of a mapped class sets the columns of the
    ordinary fields in declaration order, one placeholder each, and ends with
    the placeholder of the primary key; the delete statement has the primary
    key only.  For the fields [id] (primary key), [name] and [age] they are
    ["update `T` set `name`=?,`age`=? where `id`=?"] and
    ["delete from `T` where `id`=?"], [T] being the table. *)
Theorem update_and_delete_statements name attrs w s :
  schema_of (ModelMetaclass_new name attrs w).1 = Some s →
  is_dict attrs →
  (__update__ s =
     "update `" +:+ __table__ s +:+ "` set "
       +:+ join "," (map (λ kf, "`" +:+ column_name kf.1 kf.2 +:+ "`=?") (ordinary_decls attrs))
       +:+ " where `" +:+ __primary_key__ s +:+ "`=?" ∧
   __delete__ s =
     "delete from `" +:+ __table__ s +:+ "` where `" +:+ __primary_key__ s +:+ "`=?") ∧
  (attrs = User_attrs →
     __update__ s = "update `" +:+ __table__ s +:+ "` set `name`=?,`age`=? where `id`=?" ∧
     __delete__ s = "delete from `" +:+ __table__ s +:+ "` where `id`=?").
Proof.
  intros Hs Hd.
  apply ModelMetaclass_new_inv in Hs as (pk & m & _ & Hpk & Hm & ->). simpl.
  assert (map (λ f, "`" +:+ name_or m f +:+ "`=?") (ordinary_fields attrs) =
          map (λ kf, "`" +:+ column_name kf.1 kf.2 +:+ "`=?") (ordinary_decls attrs)) as Heq.
  { rewrite <- ordinary_decls_fst. change (map ?g ?l) with (g <$> l).
    rewrite <- list_fmap_compose. apply list_fmap_ext.
    intros i [k f] Hin. simpl. apply list_elem_of_lookup_2 in Hin.
    apply ordinary_decls_elem_of in Hin as [Hin _].
    by rewrite (name_or_column_name m attrs k f Hm Hd Hin). }
  rewrite Heq. split; [done|]. intros ->.
  apply list_elem_of_singleton in Hpk as ->. done.
Qed.

(** C5.  The result of the metaclass, and so the four statements, do not
    depend on the world in which it runs: two derivations from the same name
    and the same declarations, in any two worlds, and in particular one after
    the other, give the same strings. *)
Theorem derivation_deterministic name attrs w1 w2 :
  templates (ModelMetaclass_new name attrs w1).1 =
  templates (ModelMetaclass_new name attrs w2).1 ∧
  templates (ModelMetaclass_new name attrs (ModelMetaclass_new name attrs w1).2).1 =
  templates (ModelMetaclass_new name attrs w1).1.
Proof.
  split; f_equal; apply ModelMetaclass_new_world.
Qed.

(** C10.  A mapped class with one primary key and no ordinary field is built,
    and the list of ordinary columns of its select and insert statements is
    empty, which leaves a comma behind. *)
Theorem primary_key_only name attrs w pk :
  name ≠ "Model" → identifiers attrs →
  pk_names attrs = [pk] → ordinary_fields attrs = [] →
  ∃ attrs' s,
    (ModelMetaclass_new name attrs w).1 = inr (MappedClass name attrs' s) ∧
    __select__ s = "select `" +:+ pk +:+ "`,  from `" +:+ __table__ s +:+ "`" ∧
    __insert__ s = "insert into `" +:+ __table__ s +:+ "` (, `" +:+ pk +:+ "`) values (?)".
Proof.
  intros Hname Hid Hn Hf.
  destruct (metaclass_accepts name attrs w pk Hname Hid Hn) as (attrs' & s & Hr & Hp).
  exists attrs', s. split; [done|].
  assert (schema_of (ModelMetaclass_new name attrs w).1 = Some s) as Hs by (by rewrite Hr).
  apply ModelMetaclass_new_inv in Hs as (pk' & m & _ & _ & _ & ->).
  simpl in *. subst pk'. rewrite Hf. done.
Qed.

(** ** Reading a value or its default *)

Implicit Types (cls : @Schema G) (self : Dict).

Lemma value_None_dec (v : value) : v = VNone ∨ v ≠ VNone.
Proof. destruct v; auto. Qed.

Lemma getattr_attribute cls key self w :
  getattr class_attr cls key VNone (self, w)
  = (inr (attribute class_attr cls self key), (self, w)).
Proof.
  unfold getattr, attribute, __getattr__, stored.
  destruct (class_attr cls key); [done|]. by destruct (self !! key).
Qed.

Lemma attribute_stored cls key self :
  class_attr cls key = None → attribute class_attr cls self key = stored self key.
Proof. unfold attribute. by intros ->. Qed.

(** The ways through [getValueOrDefault]. *)
Lemma getValueOrDefault_stored cls key self w :
  attribute class_attr cls self key ≠ VNone →
  getValueOrDefault class_attr cls key (self, w)
  = (inr (attribute class_attr cls self key), (self, w)).
Proof.
  intros Hv. unfold getValueOrDefault. munfold. rewrite getattr_attribute.
  by destruct (attribute class_attr cls self key).
Qed.

Lemma getValueOrDefault_unset cls key self w :
  attribute class_attr cls self key = VNone →
  getValueOrDefault class_attr cls key (self, w) =
  match __mappings__ cls !! key with
  | None => (inl (KeyError key), (self, w))
  | Some field =>
      match f_default field with
      | DVal VNone => (inr VNone, (self, w))
      | DVal c => (inr c, (<[key := c]> self, resolved key c (w_gen w) w))
      | DCall g =>
          (inr (g (w_gen w)).1,
           (<[key := (g (w_gen w)).1]> self, resolved key (g (w_gen w)).1 (g (w_gen w)).2 w))
      end
  end.
Proof.
  intros Hv. unfold getValueOrDefault. munfold. rewrite getattr_attribute, Hv. simpl.
  destruct (__mappings__ cls !! key) as [field|]; [|done].
  destruct (f_default field) as [[]|g]; try done.
  unfold call. simpl. by destruct (g (w_gen w)).
Qed.

(** A call leaves the other items alone and does not touch the database;
    unless the class has the name as an attribute that is [None], what the
    call returns is what [getattr] gives afterwards. *)
Lemma getValueOrDefault_frame cls key self w :
  let r := getValueOrDefault class_attr cls key (self, w) in
  (∀ k, k ≠ key → r.2.1 !! k = self !! k) ∧
  w_db r.2.2 = w_db w ∧
  (class_attr cls key ≠ Some VNone →
   ∀ v, r.1 = inr v → attribute class_attr cls r.2.1 key = v).
Proof.
  destruct (value_None_dec (attribute class_attr cls self key)) as [Hv|Hv]; simpl.
  - rewrite (getValueOrDefault_unset _ _ _ _ Hv).
    assert (class_attr cls key ≠ Some VNone → class_attr cls key = None) as Hc.
    { unfold attribute in Hv. destruct (class_attr cls key); [|done]. by subst. }
    destruct (__mappings__ cls !! key) as [field|]; [|done].
    destruct (f_default field) as [[]|g]; simpl;
      (split; [|split]); try done;
      try (by intros k Hk; rewrite lookup_insert_ne);
      try (by intros Hn v [= <-]; rewrite (attribute_stored _ _ _ (Hc Hn));
              unfold stored; rewrite lookup_insert_eq).
    by intros _ v [= <-].
  - rewrite (getValueOrDefault_stored _ _ _ _ Hv). simpl.
    split; [done|]. split; [done|]. by intros _ v [= <-].
Qed.

(** X21.  For a name that the class does not have as an attribute,
    [getValueOrDefault] returns the stored value when there is one that is
    not [None], and changes nothing; when the value is absent or [None] and
    the field has a default, it resolves the default, a callable by one call
    and any other object as it is, stores the result on the instance, logs
    one debug record and returns the result. *)
Theorem getValueOrDefault_of_item cls key self w :
  class_attr cls key = None →
  (∀ v, self !! key = Some v → v ≠ VNone →
     getValueOrDefault class_attr cls key (self, w) = (inr v, (self, w))) ∧
  (∀ field, self !! key = None ∨ self !! key = Some VNone →
     __mappings__ cls !! key = Some field →
     match f_default field with
     | DVal VNone => True
     | DVal c =>
         getValueOrDefault class_attr cls key (self, w) =
         (inr c, (<[key := c]> self, resolved key c (w_gen w) w))
     | DCall g =>
         let '(v, gs) := g (w_gen w) in
         getValueOrDefault class_attr cls key (self, w) =
         (inr v, (<[key := v]> self, resolved key v gs w))
     end).
Proof.
  intros Hc. split.
  - intros v Hv Hnn.
    assert (attribute class_attr cls self key = v) as Hs
      by (rewrite attribute_stored by done; unfold stored; by rewrite Hv).
    rewrite getValueOrDefault_stored; rewrite Hs; done.
  - intros field Hv Hm.
    assert (attribute class_attr cls self key = VNone) as Hs
      by (rewrite attribute_stored by done; unfold stored; by destruct Hv as [->| ->]).
    rewrite (getValueOrDefault_unset _ _ _ _ Hs), Hm.
    destruct (f_default field) as [[]|g]; try done.
    by destruct (g (w_gen w)).
Qed.

Lemma reads_keeps cls key v keys : ∀ σ : @Obj G DB,
  class_attr cls key = None →
  stored σ.1 key = v → v ≠ VNone → stored (reads class_attr cls keys σ).1 key = v.
Proof.
  induction keys as [|k keys IH]; intros [self w] Hc Hs Hv; [done|].
  simpl. apply IH; [done| |done]. simpl in Hs.
  destruct (decide (k = key)) as [->|Hk].
  - rewrite getValueOrDefault_stored; [done|].
    rewrite attribute_stored by done. by rewrite Hs.
  - destruct (getValueOrDefault_frame cls k self w) as (Hf & _ & _).
    unfold stored in *. by rewrite Hf.
Qed.

(** C6, as the code has it.  When a field, whose name the class does not have
    as an attribute, is unset and has a default, and the first
    [getValueOrDefault] resolves it to a value that is not [None], the call
    stores that value and every later call for the field returns it again,
    whatever was read in between and whatever the world has become. *)
Theorem default_read_is_stable cls key field self w v (σ1 : @Obj G DB) :
  class_attr cls key = None →
  stored self key = VNone →
  __mappings__ cls !! key = Some field → f_default field ≠ DVal VNone →
  getValueOrDefault class_attr cls key (self, w) = (inr v, σ1) →
  v ≠ VNone →
  σ1.1 !! key = Some v ∧
  ∀ keys w',
    let self2 := (reads class_attr cls keys σ1).1 in
    getValueOrDefault class_attr cls key (self2, w') = (inr v, (self2, w')).
Proof.
  intros Hc Hs Hm Hd Hcall Hv.
  assert (attribute class_attr cls self key = VNone) as Ha
    by (by rewrite attribute_stored).
  assert (σ1.1 !! key = Some v) as Hst.
  { rewrite (getValueOrDefault_unset _ _ _ _ Ha), Hm in Hcall.
    destruct (f_default field) as [[]|g]; try done;
      injection Hcall as <- <-; simpl; by rewrite lookup_insert_eq. }
  split; [done|]. intros keys w'. simpl.
  assert (stored (reads class_attr cls keys σ1).1 key = v) as Hk.
  { apply reads_keeps; [done| |done]. unfold stored. by rewrite Hst. }
  assert (attribute class_attr cls (reads class_attr cls keys σ1).1 key = v) as Hk'
    by (by rewrite attribute_stored).
  rewrite getValueOrDefault_stored; rewrite Hk'; done.
Qed.

(** ** Saving and finding *)

Lemma field_names_keys attrs k :
  k ∈ ordinary_fields attrs ∨ k ∈ pk_names attrs →
  k ∈ attrs.*1 ∧ ∃ f, (k, AField f) ∈ attrs.
Proof.
  unfold ordinary_fields, pk_names, is_ordinary, is_pk.
  intros [Hin|Hin];
    apply list_elem_of_fmap in Hin as ([k' v] & -> & Hin);
    apply list_elem_of_filter in Hin as [Hp Hin]; simpl in *;
    (split; [by apply (list_elem_of_fmap_2 fst) in Hin|]);
    destruct v as [f|v]; try done; by exists f.
Qed.

Lemma declared_is_Some attrs k f : (k, AField f) ∈ attrs → is_Some (declared k attrs).
Proof.
  induction attrs as [|[k' v] attrs IH]; intros Hin; [by apply elem_of_nil in Hin|].
  simpl. apply elem_of_cons in Hin as [[= <- <-]|Hin].
  - destruct (declared k attrs); [done|]. by rewrite String.eqb_refl.
  - destruct (IH Hin) as [f' ->]. done.
Qed.

Lemma NoDup_ordinary_fields attrs : is_dict attrs → NoDup (ordinary_fields attrs).
Proof.
  unfold is_dict. induction attrs as [|[k v] attrs IH]; intros Hnd; [constructor|].
  rewrite fmap_cons in Hnd. apply NoDup_cons in Hnd as [Hk Hnd].
  rewrite ordinary_fields_cons. destruct (is_ordinary (k, v)); [|by apply IH].
  apply NoDup_cons. split; [|by apply IH].
  intros Hin. apply Hk. apply field_names_keys. by left.
Qed.

Lemma pk_not_ordinary attrs k :
  is_dict attrs → k ∈ pk_names attrs → k ∉ ordinary_fields attrs.
Proof.
  unfold is_dict. induction attrs as [|[k' v] attrs IH]; intros Hnd Hin.
  - by apply elem_of_nil in Hin.
  - rewrite fmap_cons in Hnd. apply NoDup_cons in Hnd as [Hk Hnd]. simpl in Hk.
    rewrite pk_names_cons in Hin. rewrite ordinary_fields_cons.
    unfold is_pk, is_ordinary in *. simpl in *.
    destruct v as [f|v]; [destruct (primary_key f); simpl in *|]; [| |by apply IH].
    + apply elem_of_cons in Hin as [->|Hin]; [|by apply IH].
      intros Hin. apply Hk. apply field_names_keys. by left.
    + intros Ho. apply elem_of_cons in Ho as [->|Ho]; [|by apply (IH Hnd Hin)].
      apply Hk. apply field_names_keys. by right.
Qed.

(** The schema of a mapped class knows every field that [save] reads, once. *)
Lemma derived_schema_fields name attrs w s :
  schema_of (ModelMetaclass_new name attrs w).1 = Some s → is_dict attrs →
  NoDup (__fields__ s ++ [__primary_key__ s]) ∧
  ∀ k, k ∈ __fields__ s ++ [__primary_key__ s] → is_Some (__mappings__ s !! k).
Proof.
  intros Hs Hd.
  apply ModelMetaclass_new_inv in Hs as (pk & m & _ & Hpk & Hm & ->). simpl. split.
  - apply NoDup_app. split; [by apply NoDup_ordinary_fields|].
    split; [|apply NoDup_singleton].
    intros k Hk Hk'. apply list_elem_of_singleton in Hk'. subst k.
    by apply (pk_not_ordinary attrs pk).
  - intros k Hk. rewrite Hm.
    assert (k ∈ ordinary_fields attrs ∨ k ∈ pk_names attrs) as Hin.
    { apply elem_of_app in Hk as [?|Hk]; [by left|].
      apply list_elem_of_singleton in Hk. subst k. by right. }
    apply field_names_keys in Hin as (_ & f & Hin). by eapply declared_is_Some.
Qed.

Lemma reads_app cls (keys1 keys2 : list string) (σ : @Obj G DB) :
  reads class_attr cls (keys1 ++ keys2) σ
  = reads class_attr cls keys2 (reads class_attr cls keys1 σ).
Proof. revert σ. induction keys1 as [|k keys1 IH]; intros σ; [done|]. simpl. apply IH. Qed.

Lemma bound_app cls (keys1 keys2 : list string) (σ : @Obj G DB) :
  bound class_attr cls (keys1 ++ keys2) σ
  = bound class_attr cls keys1 σ ++ bound class_attr cls keys2 (reads class_attr cls keys1 σ).
Proof.
  revert σ. induction keys1 as [|k keys1 IH]; intros σ; [done|]. simpl. by rewrite IH.
Qed.

Lemma length_bound cls (keys : list string) (σ : @Obj G DB) :
  length (bound class_attr cls keys σ) = length keys.
Proof. revert σ. induction keys as [|k keys IH]; intros σ; [done|]. simpl. by rewrite IH. Qed.

Lemma reads_take_S cls (keys : list string) i k (σ : @Obj G DB) :
  keys !! i = Some k →
  reads class_attr cls (take (S i) keys) σ
  = (getValueOrDefault class_attr cls k (reads class_attr cls (take i keys) σ)).2.
Proof.
  intros Hk. rewrite (take_S_r _ _ _ Hk), reads_app. done.
Qed.

(** A declared key never makes [getValueOrDefault] raise. *)
Lemma getValueOrDefault_declared cls key self w :
  is_Some (__mappings__ cls !! key) →
  ∃ v, (getValueOrDefault class_attr cls key (self, w)).1 = inr v.
Proof.
  intros [field Hfield].
  destruct (value_None_dec (attribute class_attr cls self key)) as [Hs|Hs].
  - rewrite (getValueOrDefault_unset _ _ _ _ Hs), Hfield.
    destruct (f_default field) as [[]|g]; simpl; eauto.
  - rewrite (getValueOrDefault_stored _ _ _ _ Hs). simpl. eauto.
Qed.

(** The value at each place of [bound] is the one that [getValueOrDefault]
    returns for the key at this place, called after those for the keys
    before it. *)
Lemma bound_lookup cls (keys : list string) : ∀ (σ : @Obj G DB) i k,
  (∀ k, k ∈ keys → is_Some (__mappings__ cls !! k)) →
  keys !! i = Some k →
  ∃ v, bound class_attr cls keys σ !! i = Some v ∧
       (getValueOrDefault class_attr cls k (reads class_attr cls (take i keys) σ)).1
       = inr v.
Proof.
  induction keys as [|key keys IH]; intros [self w] i k Hm Hk; [done|].
  destruct i as [|i]; simpl in *.
  - injection Hk as ->.
    destruct (getValueOrDefault_declared cls k self w) as [v Hv].
    { apply Hm, list_elem_of_here. }
    exists v. by rewrite Hv.
  - destruct (getValueOrDefault class_attr cls key (self, w)) as [r σ'].
    apply IH; [|done]. intros k' Hk'. apply Hm. by apply list_elem_of_further.
Qed.

(** [list(map(self.getValueOrDefault, keys))] for declared keys: no call
    raises. *)
Lemma mapM_getValueOrDefault cls (keys : list string) : ∀ self w,
  (∀ k, k ∈ keys → is_Some (__mappings__ cls !! k)) →
  let σ1 := reads class_attr cls keys (self, w) in
  mapM (getValueOrDefault class_attr cls) keys (self, w)
  = (inr (bound class_attr cls keys (self, w)), σ1) ∧
  w_db σ1.2 = w_db w.
Proof.
  induction keys as [|key keys IH]; intros self w Hm; [done|]. simpl.
  destruct (getValueOrDefault_frame cls key self w) as (_ & Hdb & _).
  destruct (getValueOrDefault_declared cls key self w) as [v Hcall].
  { apply Hm, list_elem_of_here. }
  destruct (getValueOrDefault class_attr cls key (self, w)) as [r [self' w']] eqn:Hcall'.
  simpl in *. subst r.
  destruct (IH self' w') as (Hrun & Hdb1).
  { intros k Hk. apply Hm. by apply list_elem_of_further. }
  split; [|congruence].
  munfold. by rewrite Hcall', Hrun.
Qed.

(** When no key is an attribute of the class and each key comes once, the
    values are those that the instance holds in the end. *)
Lemma bound_stored cls (keys : list string) : ∀ self w,
  NoDup keys → (∀ k, k ∈ keys → class_attr cls k = None) →
  (∀ k, k ∈ keys → is_Some (__mappings__ cls !! k)) →
  let σ1 := reads class_attr cls keys (self, w) in
  bound class_attr cls keys (self, w) = map (stored σ1.1) keys ∧
  (∀ k, k ∉ keys → σ1.1 !! k = self !! k).
Proof.
  induction keys as [|key keys IH]; intros self w Hnd Hc Hm; [done|].
  apply NoDup_cons in Hnd as [Hkey Hnd]. simpl.
  destruct (getValueOrDefault_frame cls key self w) as (Hf & _ & Hv).
  destruct (getValueOrDefault_declared cls key self w) as [v Hcall].
  { apply Hm, list_elem_of_here. }
  destruct (getValueOrDefault class_attr cls key (self, w)) as [r [self' w']].
  simpl in *. subst r.
  destruct (IH self' w' Hnd) as (Hb & Hf1).
  { intros k Hk. apply Hc. by apply list_elem_of_further. }
  { intros k Hk. apply Hm. by apply list_elem_of_further. }
  assert (class_attr cls key = None) as Hck by apply Hc, list_elem_of_here.
  split.
  - assert (stored self' key = v) as Hsv.
    { rewrite <- (attribute_stored cls key self' Hck). apply Hv; [by rewrite Hck|done]. }
    rewrite Hb. f_equal. unfold stored in *. by rewrite (Hf1 key Hkey).
  - intros k Hk. apply not_elem_of_cons in Hk as [Hne Hk].
    rewrite (Hf1 k Hk). by apply Hf.
Qed.

Lemma execute_run sql args w :
  execute cursor_execute sql args w =
  let r := cursor_execute (replace_placeholder sql) args (w_db w) in
  (match r.1 with
   | inl e => inl e
   | inr cur => inr (rowcount cur)
   end,
   {| w_gen := w_gen w; w_db := r.2; w_log := w_log w ++ [(INFO, "SQL: " +:+ sql)] |}).
Proof.
  unfold execute, driver. munfold. simpl.
  by destruct (cursor_execute (replace_placeholder sql) args (w_db w)) as [[e|cur] db].
Qed.

Lemma select_run sql args size w :
  select cursor_execute sql args size w =
  let r := cursor_execute (replace_placeholder sql) args (w_db w) in
  match r.1 with
  | inl e =>
      (inl e, {| w_gen := w_gen w; w_db := r.2; w_log := w_log w ++ [(INFO, "SQL: " +:+ sql)] |})
  | inr cur =>
      let rs := match size with
                | Some (S n) => take (S n) (cur_rows cur)
                | _ => cur_rows cur
                end in
      (inr rs,
       {| w_gen := w_gen w; w_db := r.2;
          w_log := (w_log w ++ [(INFO, "SQL: " +:+ sql)])
                     ++ [(INFO, "rows returned: " +:+ pretty (length rs))] |})
  end.
Proof.
  unfold select, driver. munfold. simpl.
  by destruct (cursor_execute (replace_placeholder sql) args (w_db w)) as [[e|cur] db].
Qed.

(** [save] first calls [getValueOrDefault] for the ordinary fields in the
    order of [__fields__], then for the primary key, and goes on with the
    values that these calls return. *)
Lemma save_run cls self w :
  (∀ k, k ∈ __fields__ cls ++ [__primary_key__ cls] → is_Some (__mappings__ cls !! k)) →
  let keys := __fields__ cls ++ [__primary_key__ cls] in
  let σ1 := reads class_attr cls keys (self, w) in
  w_db σ1.2 = w_db w ∧
  save cursor_execute class_attr cls (self, w) =
  (rows ← lift (execute cursor_execute (__insert__ cls) (bound class_attr cls keys (self, w)));
   if bool_decide (rows ≠ 1) then
     lift (logging WARNING ("failded to insert record: affected rows: " +:+ pretty rows))
   else mret ()) σ1.
Proof.
  intros Hm. cbv zeta. rewrite reads_app, bound_app.
  destruct (mapM_getValueOrDefault cls (__fields__ cls) self w) as (Hrun & Hdb1).
  { intros k Hk. apply Hm, elem_of_app. by left. }
  set (pk := __primary_key__ cls) in *.
  destruct (reads class_attr cls (__fields__ cls) (self, w)) as [self1 w1]. simpl in *.
  destruct (getValueOrDefault_frame cls pk self1 w1) as (_ & Hdb2 & _).
  destruct (getValueOrDefault_declared cls pk self1 w1) as [v Hcall].
  { apply Hm, elem_of_app. right. apply list_elem_of_here. }
  destruct (getValueOrDefault class_attr cls pk (self1, w1)) as [r [self2 w2]] eqn:Hcall'.
  simpl in *. subst r. split; [congruence|].
  unfold save. fold pk. munfold. rewrite Hrun, Hcall'. done.
Qed.

(** C2.  For a mapped class with [n] ordinary fields the insert statement
    lists the back-quoted ordinary fields in declaration order, then the
    primary key, and has [n + 1] question marks as values.  [save] hands the
    driver this statement with [n + 1] values: at each place the value that
    [getValueOrDefault] returns for the ordinary field at this place in
    declaration order, and at the last place the one it returns for the
    primary key, the calls being made in this order; what the driver answers
    decides whether [save] returns or raises.  When no field has the name of
    an attribute of the class, these are the values that the instance holds
    once the defaults are resolved. *)
Theorem insert_binds_in_declaration_order name attrs w0 s self w :
  schema_of (ModelMetaclass_new name attrs w0).1 = Some s → is_dict attrs →
  let n := length (ordinary_fields attrs) in
  let placeholders := join "," (replicate (n + 1) "?") in
  let keys := ordinary_fields attrs ++ [__primary_key__ s] in
  let args := bound class_attr s keys (self, w) in
  __insert__ s =
    "insert into `" +:+ __table__ s +:+ "` ("
      +:+ join "," (map escape (ordinary_fields attrs))
      +:+ ", `" +:+ __primary_key__ s +:+ "`) values (" +:+ placeholders +:+ ")" ∧
  count_char "?" placeholders = (n + 1)%nat ∧
  length args = (n + 1)%nat ∧
  (∀ i k, keys !! i = Some k →
     ∃ v, args !! i = Some v ∧
          (getValueOrDefault class_attr s k (reads class_attr s (take i keys) (self, w))).1
          = inr v) ∧
  (save cursor_execute class_attr s (self, w)).1 =
    match (cursor_execute (replace_placeholder (__insert__ s)) args (w_db w)).1 with
    | inl e => inl e
    | inr _ => inr ()
    end ∧
  ((∀ k, k ∈ keys → class_attr s k = None) →
   args = map (stored (save cursor_execute class_attr s (self, w)).2.1) keys).
Proof.
  intros Hs Hd.
  destruct (derived_schema_fields _ _ _ _ Hs Hd) as [Hnd Hm].
  destruct (save_run s self w Hm) as (Hdb & Hsave).
  pose proof (bound_lookup s (__fields__ s ++ [__primary_key__ s]) (self, w)) as Hlook.
  pose proof (bound_stored s (__fields__ s ++ [__primary_key__ s]) self w Hnd) as Hst.
  apply ModelMetaclass_new_inv in Hs as (pk & m & _ & _ & _ & ->). simpl in *.
  rewrite <- create_args_string_replicate.
  split; [done|]. split; [apply count_char_create_args_string|].
  split; [rewrite length_bound, length_app; simpl; lia|].
  split; [intros i k Hk; by apply Hlook|].
  rewrite Hsave. clear Hsave.
  destruct (reads class_attr _ _ _) as [self1 w1]. simpl in *.
  munfold. rewrite execute_run, Hdb. simpl.
  match goal with |- context [cursor_execute ?q ?a ?d] =>
    destruct (cursor_execute q a d) as [[e|cur] db] eqn:Hdrv end; simpl.
  - split; [done|]. intros Hc. by apply Hst.
  - destruct (bool_decide (rowcount cur ≠ 1)); simpl;
      (split; [done|]); intros Hc; by apply Hst.
Qed.

(** [find(pk)] calls [select] with the select statement of the class followed
    by [" where `<primary key>`=?"], the argument [pk] and the size 1; it
    returns [None] when no row comes back; otherwise it makes an instance of
    the first row, which raises [TypeError] when the row has a column named
    [self] and gives the instance with the items of the row when it has
    none. *)
Lemma find_by_primary_key cls pk w :
  let sql := __select__ cls +:+ " where `" +:+ __primary_key__ cls +:+ "`=?" in
  let r := select cursor_execute sql [pk] (Some 1%nat) w in
  find cursor_execute cls pk w =
    (match r.1 with
     | inl e => inl e
     | inr [] => inr None
     | inr (row :: _) =>
         match row !! "self" with
         | Some _ => inl TypeError
         | None => inr (Some row)
         end
     end, r.2) ∧
  (∀ rows, r.1 = inr rows → (length rows ≤ 1)%nat).
Proof.
  simpl. split.
  - unfold find, Model_init. munfold.
    destruct (select _ _ _ _ _) as [[e|[|row rows]] w']; try done.
    simpl. destruct (row !! "self"); reflexivity.
  - intros rows. rewrite select_run. simpl.
    destruct (cursor_execute _ _ _) as [[e|cur] db]; simpl; [done|].
    intros [= <-]. destruct (cur_rows cur); simpl; lia.
Qed.

(** C9.  When [execute] returns a number of affected rows other than 1 for
    the insert that [save] issues, with the values that [getValueOrDefault]
    has returned for the ordinary fields and the primary key, [save] returns
    [None] and raises nothing; all it adds to what [execute] did is one
    warning in the log. *)
Theorem save_tolerates_anomaly name attrs w0 s self w :
  schema_of (ModelMetaclass_new name attrs w0).1 = Some s → is_dict attrs →
  let keys := __fields__ s ++ [__primary_key__ s] in
  let σ1 := reads class_attr s keys (self, w) in
  let args := bound class_attr s keys (self, w) in
  ∀ rows w2,
    execute cursor_execute (__insert__ s) args σ1.2 = (inr rows, w2) → rows ≠ 1 →
    save cursor_execute class_attr s (self, w) =
    (inr (),
     (σ1.1,
      {| w_gen := w_gen w2; w_db := w_db w2;
         w_log := w_log w2 ++ [(WARNING, "failded to insert record: affected rows: "
                                           +:+ pretty rows)] |})).
Proof.
  intros Hs Hd keys σ1 args rows w2 Hexec Hrows. subst keys σ1 args.
  destruct (derived_schema_fields _ _ _ _ Hs Hd) as [Hnd Hm].
  destruct (save_run s self w Hm) as (Hdb & Hsave).
  rewrite Hsave. clear Hsave.
  destruct (reads class_attr s _ _) as [self1 w1]. simpl in *.
  assert (lift (execute cursor_execute (__insert__ s)
                  (bound class_attr s (__fields__ s ++ [__primary_key__ s]) (self, w)))
            (self1, w1)
          = (inr rows, (self1, w2))) as Hlift by (unfold lift; by rewrite Hexec).
  unfold mbind, M_bind. rewrite Hlift.
  rewrite bool_decide_true by done. reflexivity.
Qed.

(** * Further properties of the module *)

(** ** Placeholders *)

Lemma replace_placeholder_cons c (s : string) :
  replace_placeholder (String c s) =
  if Ascii.eqb c "?" then "%s" +:+ replace_placeholder s
  else String c (replace_placeholder s).
Proof. reflexivity. Qed.

Lemma count_char_cons c d (s : string) :
  count_char c (String d s) = ((if Ascii.eqb d c then 1 else 0) + count_char c s)%nat.
Proof. reflexivity. Qed.

Lemma replace_placeholder_append (s t : string) :
  replace_placeholder (s +:+ t) = replace_placeholder s +:+ replace_placeholder t.
Proof.
  induction s as [|c s IH]; [done|].
  rewrite append_cons, !replace_placeholder_cons, IH.
  destruct (Ascii.eqb c "?"); [by rewrite append_assoc|by rewrite append_cons].
Qed.

Lemma replace_placeholder_plain (s : string) :
  no_placeholder s → replace_placeholder s = s.
Proof.
  unfold no_placeholder. induction s as [|c s IH]; [done|].
  rewrite count_char_cons, replace_placeholder_cons.
  destruct (Ascii.eqb c "?"); [done|]. intros H. by rewrite IH.
Qed.

Lemma no_placeholder_append (s t : string) :
  no_placeholder (s +:+ t) ↔ no_placeholder s ∧ no_placeholder t.
Proof. unfold no_placeholder. rewrite count_char_append. lia. Qed.

Lemma length_append (s t : string) :
  String.length (s +:+ t) = (String.length s + String.length t)%nat.
Proof.
  induction s as [|c s IH]; [done|]. rewrite append_cons. simpl. by rewrite IH.
Qed.

(** X1.  [sql.replace('?', '%s')] leaves a text without question mark as
    it is, and turns a question mark between two texts into ["%s"] between
    what it makes of these: every question mark becomes ["%s"] and nothing
    else changes.  So the result has no question mark, and has one character
    and one percent sign more per question mark. *)
Theorem replace_placeholder_translates_all (sql : string) :
  (no_placeholder sql → replace_placeholder sql = sql) ∧
  (∀ rest, replace_placeholder (sql +:+ "?" +:+ rest)
           = replace_placeholder sql +:+ "%s" +:+ replace_placeholder rest) ∧
  count_char "?" (replace_placeholder sql) = 0%nat ∧
  String.length (replace_placeholder sql)
    = (String.length sql + count_char "?" sql)%nat ∧
  count_char "%" (replace_placeholder sql)
    = (count_char "%" sql + count_char "?" sql)%nat.
Proof.
  split; [apply replace_placeholder_plain|].
  split; [intros rest; by rewrite !replace_placeholder_append|].
  induction sql as [|c s (IH1 & IH2 & IH3)]; [done|].
  rewrite replace_placeholder_cons, !count_char_cons.
  destruct (Ascii.eqb_spec c "?") as [->|Hc].
  - rewrite !count_char_append, length_append, IH1, IH2, IH3. simpl. lia.
  - rewrite !count_char_cons, IH1, IH3. simpl. rewrite IH2.
    destruct (Ascii.eqb c "?") eqn:E; [by apply Ascii.eqb_eq in E|].
    destruct (Ascii.eqb c "%"); lia.
Qed.

Lemma count_char_join c sep (l : list string) :
  (∀ x, x ∈ l → count_char c x = 0%nat) → count_char c sep = 0%nat →
  count_char c (join sep l) = 0%nat.
Proof.
  intros Hl Hsep. induction l as [|x [|y l] IH]; [done| |].
  - apply Hl, list_elem_of_here.
  - rewrite join_cons2, !count_char_append, Hsep, IH.
    + rewrite Hl; [done|apply list_elem_of_here].
    + intros z Hz. apply Hl. by apply list_elem_of_further.
Qed.

Lemma count_char_join_ones c sep (l : list string) :
  (∀ x, x ∈ l → count_char c x = 1%nat) → count_char c sep = 0%nat →
  count_char c (join sep l) = length l.
Proof.
  intros Hl Hsep. induction l as [|x [|y l] IH]; [done| |].
  - simpl. apply Hl, list_elem_of_here.
  - rewrite join_cons2, !count_char_append, Hsep, IH.
    + rewrite Hl; [done|apply list_elem_of_here].
    + intros z Hz. apply Hl. by apply list_elem_of_further.
Qed.

Lemma replace_placeholder_create_args_string num :
  replace_placeholder (create_args_string num) = join "," (replicate num "%s").
Proof.
  rewrite create_args_string_replicate.
  induction num as [|[|n] IH]; [done..|].
  change (replicate (S (S n)) "?") with ("?" :: "?" :: replicate n "?").
  change (replicate (S (S n)) "%s") with ("%s" :: "%s" :: replicate n "%s").
  rewrite !join_cons2, !replace_placeholder_append.
  change ("?" :: replicate n "?") with (replicate (S n) "?").
  change ("%s" :: replicate n "%s") with (replicate (S n) "%s").
  by rewrite IH.
Qed.

Lemma no_placeholder_escaped attrs name :
  plain_names name attrs →
  ∀ x, x ∈ map escape (ordinary_fields attrs) → count_char "?" x = 0%nat.
Proof.
  intros [_ Hn] x Hx. change (map ?g ?l) with (g <$> l) in Hx.
  apply list_elem_of_fmap in Hx as (k & -> & Hk).
  assert (k ∈ ordinary_fields attrs ∨ k ∈ pk_names attrs) as Hin by (by left).
  apply field_names_keys in Hin as (_ & f & Hin).
  destruct (Hn _ _ Hin) as [Hk0 _]. unfold escape.
  by rewrite !count_char_append, Hk0.
Qed.

Lemma no_placeholder_pk attrs name pk :
  plain_names name attrs → pk ∈ pk_names attrs → no_placeholder pk.
Proof.
  intros [_ Hn] Hpk.
  assert (pk ∈ ordinary_fields attrs ∨ pk ∈ pk_names attrs) as Hin by (by right).
  apply field_names_keys in Hin as (_ & f & Hin). by destruct (Hn _ _ Hin).
Qed.

Lemma select_plain name attrs w s :
  schema_of (ModelMetaclass_new name attrs w).1 = Some s → plain_names name attrs →
  no_placeholder (__select__ s).
Proof.
  intros Hs Hn. pose proof Hn as [HT _].
  apply ModelMetaclass_new_inv in Hs as (pk & m & _ & Hpk & _ & ->). simpl.
  pose proof (no_placeholder_pk attrs name pk Hn Hpk) as Hp.
  pose proof (count_char_join "?" "," _ (no_placeholder_escaped attrs name Hn) eq_refl) as Hj.
  unfold no_placeholder in *. rewrite !count_char_append, Hp, HT, Hj. reflexivity.
Qed.

(** X2.  The numbers of placeholders.  When the table, the attributes and the
    columns of a mapped class have no question mark in their names, the select
    statement has no placeholder, the insert and the update statement have
    one per ordinary field and one for the primary key, and the delete
    statement has one. *)
Theorem statements_count_placeholders name attrs w s :
  schema_of (ModelMetaclass_new name attrs w).1 = Some s →
  is_dict attrs → plain_names name attrs →
  let n := length (ordinary_fields attrs) in
  count_char "?" (__select__ s) = 0%nat ∧
  count_char "?" (__insert__ s) = (n + 1)%nat ∧
  count_char "?" (__update__ s) = (n + 1)%nat ∧
  count_char "?" (__delete__ s) = 1%nat.
Proof.
  intros Hs Hd Hn n. split; [by apply (select_plain name attrs w)|].
  pose proof Hn as [HT Hcol].
  apply ModelMetaclass_new_inv in Hs as (pk & m & _ & Hpk & Hm & ->). simpl.
  pose proof (no_placeholder_pk attrs name pk Hn Hpk) as Hp.
  pose proof (count_char_join "?" "," _ (no_placeholder_escaped attrs name Hn) eq_refl) as Hj.
  unfold no_placeholder in *.
  split; [|split].
  - rewrite !count_char_append, Hp, HT, Hj, count_char_create_args_string.
    simpl. subst n. lia.
  - rewrite !count_char_append, Hp, HT. rewrite count_char_join_ones; [| |done].
    + rewrite length_map. simpl. subst n. lia.
    + intros x Hx. change (map ?g ?l) with (g <$> l) in Hx.
      apply list_elem_of_fmap in Hx as (k & -> & Hk).
      assert (k ∈ ordinary_fields attrs ∨ k ∈ pk_names attrs) as Hin by (by left).
      apply field_names_keys in Hin as (_ & f & Hin).
      rewrite (name_or_column_name m attrs k f Hm Hd Hin).
      destruct (Hcol _ _ Hin) as [_ Hc]. rewrite !count_char_append, (Hc f eq_refl).
      reflexivity.
  - rewrite !count_char_append, Hp, HT. reflexivity.
Qed.

(** X3.  What the driver gets from [find].  For a mapped class with names
    free of question marks, the outcome of [find(pk)] is the driver's answer
    to the select statement of the class followed by a condition on the
    primary key, with ["%s"] as its only placeholder and [pk] as its only
    argument: an exception of the driver comes out of [find] as it is, no row
    gives [None], and otherwise the first row gives the instance, or
    [TypeError] when it has a column named [self]. *)
Theorem find_asks_driver name attrs w0 s pk w :
  schema_of (ModelMetaclass_new name attrs w0).1 = Some s → plain_names name attrs →
  (find cursor_execute s pk w).1 =
  match (cursor_execute
           ("select `" +:+ __primary_key__ s +:+ "`, "
              +:+ join "," (map escape (ordinary_fields attrs))
              +:+ " from `" +:+ __table__ s +:+ "` where `" +:+ __primary_key__ s +:+ "`=%s")
           [pk] (w_db w)).1 with
  | inl e => inl e
  | inr cur =>
      match cur_rows cur with
      | [] => inr None
      | row :: _ =>
          match row !! "self" with
          | Some _ => inl TypeError
          | None => inr (Some row)
          end
      end
  end.
Proof.
  intros Hs Hn.
  pose proof (select_plain name attrs w0 s Hs Hn) as Hsel.
  apply ModelMetaclass_new_inv in Hs as Hinv. destruct Hinv as (pk' & m & _ & Hpk & _ & Heq).
  pose proof (no_placeholder_pk attrs name pk' Hn Hpk) as Hp.
  assert (__select__ s = "select `" +:+ pk' +:+ "`, "
                           +:+ join "," (map escape (ordinary_fields attrs))
                           +:+ " from `" +:+ table_name name attrs +:+ "`"
          ∧ __primary_key__ s = pk' ∧ __table__ s = table_name name attrs)
    as (Hse & Hpe & Hte) by (by rewrite Heq).
  assert (replace_placeholder
            (__select__ s +:+ " where `" +:+ __primary_key__ s +:+ "`=?")
          = "select `" +:+ __primary_key__ s +:+ "`, "
              +:+ join "," (map escape (ordinary_fields attrs))
              +:+ " from `" +:+ __table__ s +:+ "` where `" +:+ __primary_key__ s +:+ "`=%s")
    as Hq.
  { rewrite replace_placeholder_append, (replace_placeholder_plain _ Hsel),
      !replace_placeholder_append, Hpe, (replace_placeholder_plain _ Hp).
    change (replace_placeholder " where `") with " where `".
    change (replace_placeholder "`=?") with "`=%s".
    by rewrite Hse, Hte, !append_assoc. }
  unfold find, Model_init. munfold. rewrite select_run. cbv zeta. rewrite Hq.
  match goal with |- context [cursor_execute ?q ?a ?d] =>
    destruct (cursor_execute q a d) as [[e|cur] db] end; simpl; [done|].
  destruct (cur_rows cur) as [|row rows]; simpl; [done|].
  destruct (row !! "self"); reflexivity.
Qed.

(** X4.  What the driver gets from [save].  For a mapped class with names
    free of question marks it is the insert statement with ["%s"] for each of
    the [n + 1] values, which are those that [getValueOrDefault] returns for
    the ordinary fields, in declaration order, and then for the primary key;
    an exception of the driver comes out of [save] as it is, and any answer
    of the driver makes [save] return. *)
Theorem save_asks_driver name attrs w0 s self w :
  schema_of (ModelMetaclass_new name attrs w0).1 = Some s →
  is_dict attrs → plain_names name attrs →
  let args := bound class_attr s (ordinary_fields attrs ++ [__primary_key__ s]) (self, w) in
  (save cursor_execute class_attr s (self, w)).1 =
  match (cursor_execute
           ("insert into `" +:+ __table__ s +:+ "` ("
              +:+ join "," (map escape (ordinary_fields attrs))
              +:+ ", `" +:+ __primary_key__ s +:+ "`) values ("
              +:+ join "," (replicate (length (ordinary_fields attrs) + 1) "%s") +:+ ")")
           args (w_db w)).1 with
  | inl e => inl e
  | inr _ => inr ()
  end.
Proof.
  intros Hs Hd Hn.
  destruct (derived_schema_fields _ _ _ _ Hs Hd) as [Hnd Hm].
  destruct (save_run s self w Hm) as (Hdb & Hsave).
  pose proof Hn as [HT _].
  apply ModelMetaclass_new_inv in Hs as (pk & m & _ & Hpk & _ & Heq).
  pose proof (no_placeholder_pk attrs name pk Hn Hpk) as Hp.
  pose proof (count_char_join "?" "," _ (no_placeholder_escaped attrs name Hn) eq_refl) as Hj.
  assert (__insert__ s =
            "insert into `" +:+ table_name name attrs +:+ "` ("
              +:+ join "," (map escape (ordinary_fields attrs))
              +:+ ", `" +:+ pk +:+ "`) values ("
              +:+ create_args_string (length (ordinary_fields attrs) + 1) +:+ ")"
          ∧ __primary_key__ s = pk ∧ __table__ s = table_name name attrs
          ∧ __fields__ s = ordinary_fields attrs)
    as (Hie & Hpe & Hte & Hfe) by (by rewrite Heq).
  assert (replace_placeholder (__insert__ s) =
            "insert into `" +:+ __table__ s +:+ "` ("
              +:+ join "," (map escape (ordinary_fields attrs))
              +:+ ", `" +:+ __primary_key__ s +:+ "`) values ("
              +:+ join "," (replicate (length (ordinary_fields attrs) + 1) "%s") +:+ ")")
    as Hq.
  { rewrite Hie, !replace_placeholder_append, replace_placeholder_create_args_string.
    rewrite (replace_placeholder_plain _ HT), (replace_placeholder_plain _ Hp),
      (replace_placeholder_plain _ Hj).
    by rewrite Hpe, Hte. }
  cbv zeta in *. rewrite Hsave. clear Hsave.
  destruct (reads class_attr s _ _) as [self1 w1]. simpl in Hdb.
  munfold. rewrite execute_run, Hq, Hdb, Hfe. cbv zeta.
  match goal with |- context [cursor_execute ?q ?a ?d] =>
    destruct (cursor_execute q a d) as [[e|cur] db] end; simpl; [done|].
  by destruct (bool_decide (rowcount cur ≠ 1)).
Qed.

(** ** The data-access functions *)

(** X5.  [select] and the size.  When the driver answers with a cursor,
    [select] returns a prefix of its rows: all of them when the size is
    [None] or 0, and the first [size] of them otherwise, so never more than
    [size]; the number of rows returned is the last record of the log. *)
Theorem select_limits_rows sql args size w cur db :
  cursor_execute (replace_placeholder sql) args (w_db w) = (inr cur, db) →
  ∃ rs,
    (select cursor_execute sql args size w).1 = inr rs ∧
    rs `prefix_of` cur_rows cur ∧
    length rs = match size with
                | Some (S n) => min (S n) (length (cur_rows cur))
                | _ => length (cur_rows cur)
                end ∧
    last (w_log (select cursor_execute sql args size w).2)
      = Some (INFO, "rows returned: " +:+ pretty (length rs)).
Proof.
  intros Hdrv. rewrite select_run. cbv zeta. rewrite Hdrv. cbn [fst snd w_log].
  eexists. split; [done|]. rewrite last_snoc. split; [|split; [|done]].
  - destruct size as [[|n]|]; [done|apply prefix_take|done].
  - destruct size as [[|n]|]; [done|apply length_take|done].
Qed.

(** X6.  An exception of the driver comes out of [select] and of [execute]
    as it is.  By then the statement is in the log, and nothing else is
    added: [select] does not log a number of rows. *)
Theorem driver_error_propagates sql args size w e db :
  cursor_execute (replace_placeholder sql) args (w_db w) = (inl e, db) →
  let w' := {| w_gen := w_gen w; w_db := db;
               w_log := w_log w ++ [(INFO, "SQL: " +:+ sql)] |} in
  select cursor_execute sql args size w = (inl e, w') ∧
  execute cursor_execute sql args w = (inl e, w').
Proof.
  intros Hdrv. rewrite select_run, execute_run. cbv zeta. by rewrite Hdrv.
Qed.

(** ** More on the metaclass *)

Lemma attrs_get_None k attrs : attrs_get k attrs = None ↔ k ∉ attrs.*1.
Proof.
  induction attrs as [|[k' v] attrs IH]; simpl.
  - split; [intros _; apply not_elem_of_nil|done].
  - rewrite not_elem_of_cons. destruct (String.eqb_spec k' k) as [->|Hne].
    + split; [done|]. by intros [? _].
    + rewrite IH. split; [by split|by intros [_ ?]].
Qed.

Lemma attrs_get_is_dict k v attrs :
  is_dict attrs → (k, v) ∈ attrs → attrs_get k attrs = Some v.
Proof.
  unfold is_dict. induction attrs as [|[k' v'] attrs IH]; intros Hnd Hin.
  - by apply elem_of_nil in Hin.
  - rewrite fmap_cons in Hnd. apply NoDup_cons in Hnd as [Hk' Hnd]. simpl in *.
    apply elem_of_cons in Hin as [[= <- <-]|Hin].
    + by rewrite String.eqb_refl.
    + destruct (String.eqb_spec k' k) as [->|Hne]; [|by apply IH].
      exfalso. apply Hk'. by apply (list_elem_of_fmap_2 fst) in Hin.
Qed.

Lemma declared_Some_elem_of k f attrs :
  declared k attrs = Some f → (k, AField f) ∈ attrs.
Proof.
  induction attrs as [|[k' v] attrs IH]; simpl; [done|].
  destruct (declared k attrs) as [f'|].
  - intros [= <-]. by apply list_elem_of_further, IH.
  - destruct v as [f'|v]; [|done].
    destruct (String.eqb_spec k' k) as [->|]; [|done].
    intros [= <-]. apply list_elem_of_here.
Qed.

(** A class that was built, with no empty name, has one primary key. *)
Lemma accepted_has_one_key name attrs w s :
  schema_of (ModelMetaclass_new name attrs w).1 = Some s → identifiers attrs →
  pk_names attrs = [__primary_key__ s].
Proof.
  unfold ModelMetaclass_new. destruct (String.eqb name "Model"); [done|].
  munfold. simpl. intros Hs Hid. revert Hs.
  match goal with |- context [scan attrs ?st0 ?w0] =>
    pose proof (scan_primary_key attrs st0 w0 Hid ltac:(done)) as Hpk;
    destruct (scan attrs st0 w0) as [[e|st] w1] end; simpl in *; [done|].
  destruct Hpk as [[_ Hp]|[_ (k & Hn & Hp)]]; rewrite Hp; [done|].
  destruct k as [|c k]; [done|]. simpl. intros [= <-]. done.
Qed.

(** X7.  The table of a mapped class is its [__table__] when the class
    declares a string that is not empty, and the name of the class when it
    declares no [__table__], [None] or the empty string. *)
Theorem table_defaults_to_class_name name attrs w s :
  schema_of (ModelMetaclass_new name attrs w).1 = Some s → is_dict attrs →
  ("__table__" ∉ (attrs.*1) → __table__ s = name) ∧
  (("__table__", AVal VNone) ∈ attrs ∨ ("__table__", AVal (VStr "")) ∈ attrs →
     __table__ s = name) ∧
  (∀ t, ("__table__", AVal (VStr t)) ∈ attrs → t ≠ "" → __table__ s = t).
Proof.
  intros Hs Hd.
  apply ModelMetaclass_new_inv in Hs as (pk & m & _ & _ & _ & ->). simpl.
  unfold table_name. split; [|split].
  - intros Hno. apply attrs_get_None in Hno. by rewrite Hno.
  - intros [Hin|Hin]; by rewrite (attrs_get_is_dict _ _ _ Hd Hin).
  - intros t Hin Ht. rewrite (attrs_get_is_dict _ _ _ Hd Hin). simpl.
    by destruct t.
Qed.

(** X8.  The mappings of a mapped class hold exactly the fields that the
    class declares, each under the name of its attribute; and when no name is
    empty, a declared field is either the primary key or one of
    [__fields__], never both. *)
Theorem mappings_hold_declared_fields name attrs w s :
  schema_of (ModelMetaclass_new name attrs w).1 = Some s → is_dict attrs →
  (∀ k f, __mappings__ s !! k = Some f ↔ (k, AField f) ∈ attrs) ∧
  (__primary_key__ s ∉ __fields__ s) ∧
  (identifiers attrs →
     ∀ k, is_Some (__mappings__ s !! k) ↔ k = __primary_key__ s ∨ k ∈ __fields__ s).
Proof.
  intros Hs Hd. pose proof Hs as Hs'.
  apply ModelMetaclass_new_inv in Hs as (pk & m & Hne & Hpk & Hm & ->). simpl.
  split; [|split].
  - intros k f. rewrite Hm. split; [apply declared_Some_elem_of|by apply declared_is_dict].
  - by apply pk_not_ordinary.
  - intros Hid k. rewrite Hm. split.
    + intros [f Hf]. apply declared_Some_elem_of in Hf.
      destruct (primary_key f) eqn:Ef.
      * left.
        assert (k ∈ pk_names attrs) as Hk.
        { unfold pk_names. apply list_elem_of_fmap. exists (k, AField f).
          split; [done|]. apply list_elem_of_filter. by split. }
        rewrite (accepted_has_one_key name attrs w _ Hs' Hid) in Hk. simpl in Hk.
        by apply list_elem_of_singleton in Hk.
      * right. rewrite <- ordinary_decls_fst. apply list_elem_of_fmap. exists (k, f).
        split; [done|]. by apply ordinary_decls_elem_of.
    + intros [->|Hk].
      * assert (pk ∈ ordinary_fields attrs ∨ pk ∈ pk_names attrs) as Hin by (by right).
        apply field_names_keys in Hin as (_ & f & Hin). by eapply declared_is_Some.
      * assert (k ∈ ordinary_fields attrs ∨ k ∈ pk_names attrs) as Hin by (by left).
        apply field_names_keys in Hin as (_ & f & Hin). by eapply declared_is_Some.
Qed.

(** X10.  The schema follows the declarations: [__fields__] are the names of
    the fields that are no primary key, in declaration order; the primary key
    is the name of a field marked as such; and the select statement lists the
    primary key, then the back-quoted [__fields__] in that order, from the
    back-quoted table. *)
Theorem schema_follows_declarations name attrs w s :
  schema_of (ModelMetaclass_new name attrs w).1 = Some s →
  __fields__ s = ordinary_fields attrs ∧
  __primary_key__ s ∈ pk_names attrs ∧
  __select__ s =
    "select `" +:+ __primary_key__ s +:+ "`, " +:+ join "," (map escape (__fields__ s))
      +:+ " from `" +:+ __table__ s +:+ "`".
Proof.
  intros Hs. by apply ModelMetaclass_new_inv in Hs as (pk & m & _ & Hpk & _ & ->).
Qed.

Lemma scan_empty_keys attrs : ∀ st w,
  (∀ k, k ∈ pk_names attrs → k = "") →
  from_option str_truthy false (primaryKey st) = false →
  ∃ st' w', scan attrs st w = (inr st', w') ∧
            from_option str_truthy false (primaryKey st') = false.
Proof.
  induction attrs as [|[k v] attrs IH]; intros st w Hk Hst; [by eexists _, _|].
  rewrite scan_cons. rewrite pk_names_cons in Hk. destruct v as [f|v].
  - rewrite scan_item_field. unfold is_pk in Hk. simpl in *.
    destruct (primary_key f).
    + rewrite Hst. apply IH.
      * intros k' Hk'. apply Hk. by apply list_elem_of_further.
      * simpl. by rewrite (Hk k (list_elem_of_here _ _)).
    + by apply IH.
  - rewrite scan_item_val. by apply IH.
Qed.

(** X11.  A primary key under the empty name is not seen: when every field
    marked as primary key has the empty name, as when there is none, the
    metaclass raises [RuntimeError('Primary key not found.')]. *)
Theorem empty_named_key_is_not_found name attrs w :
  name ≠ "Model" → (∀ k, k ∈ pk_names attrs → k = "") →
  (ModelMetaclass_new name attrs w).1 = inl (RuntimeError "Primary key not found.").
Proof.
  intros Hname Hk. apply String.eqb_neq in Hname.
  unfold ModelMetaclass_new. rewrite Hname. munfold. simpl.
  match goal with |- context [scan attrs ?st0 ?w0] =>
    destruct (scan_empty_keys attrs st0 w0 Hk eq_refl) as (st' & w' & -> & Hst) end.
  by destruct (primaryKey st') as [[|c k]|].
Qed.

(** ** More on instances *)

(** X12.  Setting an attribute and getting it.  After [self.key = v],
    [self.key] is [v], also when [v] is [None], and getting another
    attribute gives what it gave before; neither touches the world. *)
Theorem setattr_then_getattr key v self w :
  (__setattr__ key v;; __getattr__ key) (self, w) = (inr v, (<[key := v]> self, w)) ∧
  ∀ k, k ≠ key →
    ((__setattr__ key v;; __getattr__ k) (self, w)).1 = (__getattr__ k (self, w)).1 ∧
    ((__setattr__ key v;; __getattr__ k) (self, w)).2.2 = w.
Proof.
  split.
  - unfold __setattr__, __getattr__. munfold. simpl. by rewrite lookup_insert_eq.
  - intros k Hk. unfold __setattr__, __getattr__. munfold. simpl.
    rewrite lookup_insert_ne by done. by destruct (self !! k).
Qed.

(** X13.  [getValue] never raises and changes nothing: it returns the
    attribute of the class when the class has one of this name, else the
    item of the instance, and [None] when the instance has no such item,
    where getting the attribute by [__getattr__] raises [AttributeError] with
    the name in its message. *)
Theorem getValue_never_raises cls key self w :
  getValue class_attr cls key (self, w)
    = (inr (match class_attr cls key with
            | Some v => v
            | None => default VNone (self !! key)
            end), (self, w)) ∧
  (self !! key = None →
     __getattr__ key (self, w) =
     (inl (AttributeError ("'Model' object has no attribute '" +:+ key +:+ "'")),
      (self, w))).
Proof.
  split; [apply getattr_attribute|].
  intros Hk. unfold __getattr__. by rewrite Hk.
Qed.

(** X14.  [getValueOrDefault] for a name that is neither declared as a field
    nor an attribute of the class: a value that is stored and not [None] is
    returned, but when there is none the lookup in [__mappings__] raises
    [KeyError], and the instance and the world stay as they are. *)
Theorem getValueOrDefault_undeclared name attrs w0 s key self w :
  schema_of (ModelMetaclass_new name attrs w0).1 = Some s →
  (∀ f, (key, AField f) ∉ attrs) → class_attr s key = None →
  getValueOrDefault class_attr s key (self, w) =
  match self !! key with
  | Some VNone | None => (inl (KeyError key), (self, w))
  | Some v => (inr v, (self, w))
  end.
Proof.
  intros Hs Hno Hc.
  apply ModelMetaclass_new_inv in Hs as (pk & m & _ & _ & Hm & Heq).
  assert (__mappings__ s !! key = None) as Hkey.
  { rewrite Heq. simpl. rewrite Hm. destruct (declared key attrs) as [f|] eqn:E; [|done].
    apply declared_Some_elem_of in E. by destruct (Hno f). }
  pose proof (attribute_stored s key self Hc) as Ha.
  destruct (value_None_dec (attribute class_attr s self key)) as [Hv|Hv].
  - rewrite (getValueOrDefault_unset _ _ _ _ Hv), Hkey.
    rewrite Ha in Hv. unfold stored in Hv. by destruct (self !! key) as [[]|].
  - rewrite (getValueOrDefault_stored _ _ _ _ Hv).
    rewrite Ha in *. unfold stored in *. by destruct (self !! key) as [[]|].
Qed.

(** X15.  A declared field without default, whose name the class does not
    have as an attribute: when the instance holds no value for it, or [None],
    [getValueOrDefault] returns [None], stores nothing and logs nothing. *)
Theorem getValueOrDefault_without_default cls key field self w :
  class_attr cls key = None →
  __mappings__ cls !! key = Some field → f_default field = DVal VNone →
  self !! key = None ∨ self !! key = Some VNone →
  getValueOrDefault class_attr cls key (self, w) = (inr VNone, (self, w)).
Proof.
  intros Hc Hm Hd Hv.
  assert (attribute class_attr cls self key = VNone) as Hs
    by (rewrite attribute_stored by done; unfold stored; by destruct Hv as [->| ->]).
  by rewrite (getValueOrDefault_unset _ _ _ _ Hs), Hm, Hd.
Qed.

(** X16.  Unless the class has the name as an attribute that is [None], what
    [getValueOrDefault] returns is what [getValue] returns for the same name
    right after, without changing anything. *)
Theorem getValue_after_getValueOrDefault cls key (σ : @Obj G DB) v :
  class_attr cls key ≠ Some VNone →
  (getValueOrDefault class_attr cls key σ).1 = inr v →
  getValue class_attr cls key (getValueOrDefault class_attr cls key σ).2
  = (inr v, (getValueOrDefault class_attr cls key σ).2).
Proof.
  destruct σ as [self w]. intros Hc Hv.
  destruct (getValueOrDefault_frame cls key self w) as (_ & _ & Hst).
  destruct (getValueOrDefault class_attr cls key (self, w)) as [r [self' w']]. simpl in *.
  unfold getValue. rewrite getattr_attribute. by rewrite (Hst Hc v Hv).
Qed.

(** A name that is no key, or whose value [getattr] finds and is not [None],
    keeps its item through the calls of [getValueOrDefault]. *)
Lemma reads_frame cls (keys : list string) : ∀ (σ : @Obj G DB) k,
  (k ∉ keys ∨ attribute class_attr cls σ.1 k ≠ VNone) →
  (reads class_attr cls keys σ).1 !! k = σ.1 !! k.
Proof.
  induction keys as [|key keys IH]; intros [self w] k Hk; [done|].
  simpl in *.
  destruct (getValueOrDefault_frame cls key self w) as (Hf & _ & _).
  assert ((getValueOrDefault class_attr cls key (self, w)).2.1 !! k = self !! k) as Hstep.
  { destruct (decide (k = key)) as [->|Hne]; [|by apply Hf].
    destruct Hk as [Hk|Hk]; [by destruct Hk; left|].
    by rewrite (getValueOrDefault_stored _ _ _ _ Hk). }
  rewrite IH; [done|].
  destruct Hk as [Hk|Hk]; [left; by apply not_elem_of_cons in Hk as [_ ?]|].
  right. unfold attribute, stored in *. by rewrite Hstep.
Qed.

Lemma save_instance cls self w :
  (∀ k, k ∈ __fields__ cls ++ [__primary_key__ cls] → is_Some (__mappings__ cls !! k)) →
  (save cursor_execute class_attr cls (self, w)).2.1
  = (reads class_attr cls (__fields__ cls ++ [__primary_key__ cls]) (self, w)).1.
Proof.
  intros Hm. destruct (save_run cls self w Hm) as (_ & ->).
  destruct (reads class_attr cls _ _) as [self1 w1]. munfold. rewrite execute_run. simpl.
  match goal with |- context [cursor_execute ?q ?a ?d] =>
    destruct (cursor_execute q a d) as [[e|cur] db] end; simpl; [done|].
  by destruct (bool_decide (rowcount cur ≠ 1)).
Qed.

(** X17.  When [execute] reports one affected row for the insert, with the
    values that [getValueOrDefault] has returned, [save] returns and adds
    nothing to what [execute] did: no warning is logged. *)
Theorem save_of_one_row name attrs w0 s self w :
  schema_of (ModelMetaclass_new name attrs w0).1 = Some s → is_dict attrs →
  let keys := __fields__ s ++ [__primary_key__ s] in
  let σ1 := reads class_attr s keys (self, w) in
  let args := bound class_attr s keys (self, w) in
  ∀ w2,
    execute cursor_execute (__insert__ s) args σ1.2 = (inr 1, w2) →
    save cursor_execute class_attr s (self, w) = (inr (), (σ1.1, w2)).
Proof.
  intros Hs Hd keys σ1 args w2 Hexec. subst keys σ1 args.
  destruct (derived_schema_fields _ _ _ _ Hs Hd) as [Hnd Hm].
  destruct (save_run s self w Hm) as (Hdb & Hsave).
  rewrite Hsave. clear Hsave.
  destruct (reads class_attr s _ _) as [self1 w1]. simpl in *.
  assert (lift (execute cursor_execute (__insert__ s)
                  (bound class_attr s (__fields__ s ++ [__primary_key__ s]) (self, w)))
            (self1, w1)
          = (inr 1, (self1, w2))) as Hlift by (unfold lift; by rewrite Hexec).
  unfold mbind, M_bind. rewrite Hlift. reflexivity.
Qed.

(** X18.  [save] only fills in: whatever the driver does, the instance keeps
    every item whose name is neither an ordinary field nor the primary key,
    and every value that was stored and not [None], unless the class has its
    name as an attribute that is [None]. *)
Theorem save_keeps_stored_values name attrs w0 s self w :
  schema_of (ModelMetaclass_new name attrs w0).1 = Some s → is_dict attrs →
  let self1 := (save cursor_execute class_attr s (self, w)).2.1 in
  (∀ k v, self !! k = Some v → v ≠ VNone → class_attr s k ≠ Some VNone →
     self1 !! k = Some v) ∧
  (∀ k, k ∉ __fields__ s ++ [__primary_key__ s] → self1 !! k = self !! k).
Proof.
  intros Hs Hd.
  destruct (derived_schema_fields _ _ _ _ Hs Hd) as [Hnd Hm].
  cbv zeta. rewrite (save_instance s self w Hm). split.
  - intros k v Hk Hv Hc. rewrite reads_frame; [done|].
    right. simpl. unfold attribute, stored. rewrite Hk.
    destruct (class_attr s k) as [u|]; [|done]. intros ->. done.
  - intros k Hk. rewrite reads_frame; [done|]. by left.
Qed.

(** X22.  An attribute of the class hides the item of the same name: when
    the class has the name as an attribute that is not [None], as it has its
    methods and those of [dict], [getValue] and [getValueOrDefault] return
    this attribute whatever the instance stores, and store and log nothing;
    when the attribute is [None] and the field has a default,
    [getValueOrDefault] resolves the default at every call, whatever the
    instance stores. *)
Theorem class_attribute_hides_item cls key self w :
  (∀ v, class_attr cls key = Some v → v ≠ VNone →
     getValue class_attr cls key (self, w) = (inr v, (self, w)) ∧
     getValueOrDefault class_attr cls key (self, w) = (inr v, (self, w))) ∧
  (∀ field c, class_attr cls key = Some VNone →
     __mappings__ cls !! key = Some field → f_default field = DVal c → c ≠ VNone →
     getValueOrDefault class_attr cls key (self, w)
     = (inr c, (<[key := c]> self, resolved key c (w_gen w) w))).
Proof.
  split.
  - intros v Hc Hv.
    assert (attribute class_attr cls self key = v) as Ha by (unfold attribute; by rewrite Hc).
    unfold getValue. rewrite getattr_attribute, getValueOrDefault_stored; rewrite Ha; done.
  - intros field c Hc Hm Hd Hcn.
    assert (attribute class_attr cls self key = VNone) as Ha
      by (unfold attribute; by rewrite Hc).
    rewrite (getValueOrDefault_unset _ _ _ _ Ha), Hm, Hd. by destruct c.
Qed.

(** ** The connection pool *)

(** X19.  [create_pool] needs [user], [password] and [db]: without one of
    them it raises [KeyError] for the first that is missing, in this order.
    The driver is not asked for a pool and [__pool] stays as it was; only the
    log has the record written at the start. *)
Theorem create_pool_requires_credentials {P} (connect : PoolArgs → Exn + P)
    (kw : Dict) (p : Process P) :
  let p' := {| __pool := __pool p;
               p_log := p_log p ++ [(INFO, "create database connection pool...")] |} in
  (kw !! "user" = None → create_pool connect kw p = (inl (KeyError "user"), p')) ∧
  (is_Some (kw !! "user") → kw !! "password" = None →
     create_pool connect kw p = (inl (KeyError "password"), p')) ∧
  (is_Some (kw !! "user") → is_Some (kw !! "password") → kw !! "db" = None →
     create_pool connect kw p = (inl (KeyError "db"), p')).
Proof.
  unfold create_pool, kw_item. munfold. simpl. split; [|split].
  - by intros ->.
  - by intros [u ->] ->.
  - by intros [u ->] [pw ->] ->.
Qed.

(** X20.  With [user], [password] and [db] given, [create_pool] asks the
    driver for a pool with them and with the other settings of [kw], each
    replaced by its default only when [kw] has no such key: localhost, 3306,
    utf8, autocommit, at most 10 and at least 1 connection.  The pool that
    the driver returns becomes [__pool]; when the driver raises, the
    exception comes out and [__pool] stays as it was. *)
Theorem create_pool_binds_pool {P} (connect : PoolArgs → Exn + P)
    (kw : Dict) (p : Process P) u pw d :
  kw !! "user" = Some u → kw !! "password" = Some pw → kw !! "db" = Some d →
  let log' := p_log p ++ [(INFO, "create database connection pool...")] in
  let args := {| host := default (VStr "localhost") (kw !! "host");
                 port := default (VInt 3306) (kw !! "port");
                 user := u; password := pw; db := d;
                 charset := default (VStr "utf8") (kw !! "charset");
                 autocommit := default (VBool true) (kw !! "autocommit");
                 maxsize := default (VInt 10) (kw !! "maxsize");
                 minsize := default (VInt 1) (kw !! "minsize") |} in
  create_pool connect kw p =
  match connect args with
  | inl e => (inl e, {| __pool := __pool p; p_log := log' |})
  | inr pool => (inr (), {| __pool := Some pool; p_log := log' |})
  end.
Proof.
  intros Hu Hpw Hd. unfold create_pool, kw_item, kw_get. munfold. simpl.
  rewrite Hu, Hpw, Hd. by destruct (connect _).
Qed.

End ORM_properties.

(** * The statements at concrete classes *)

Ltac in_list := repeat first [apply list_elem_of_here | apply list_elem_of_further].

Ltac is_dict_list := unfold is_dict; apply (bool_decide_unpack _); vm_compute; exact I.

Ltac no_class_attr :=
  let k := fresh "k" in let Hk := fresh "Hk" in
  intros k Hk;
  repeat (apply elem_of_cons in Hk as [->|Hk]; [reflexivity|]);
  by apply elem_of_nil in Hk.

(** C1 at the classes [User] (one key), [Guest] (none) and [Pair] (two). *)
Lemma single_primary_key_witness :
  (∃ attrs' schema,
     (ModelMetaclass_new "User" User_attrs world0).1 = inr (MappedClass "User" attrs' schema) ∧
     pk_names (User_attrs (G:=nat)) = [__primary_key__ schema]) ∧
  (ModelMetaclass_new "Guest" Guest_attrs world0).1 =
     inl (RuntimeError "Primary key not found.") ∧
  (∃ k, pk_names Pair_attrs !! 1%nat = Some k ∧
     (ModelMetaclass_new "Pair" Pair_attrs world0).1 =
     inl (RuntimeError ("Duplicate primary key for field: " +:+ k))).
Proof.
  split; [|split].
  - apply (single_primary_key "User" User_attrs world0);
      [done | repeat constructor; done | reflexivity].
  - apply (single_primary_key "Guest" Guest_attrs world0);
      [done | repeat constructor; done | reflexivity].
  - apply (single_primary_key "Pair" Pair_attrs world0);
      [done | repeat constructor; done | vm_compute; lia].
Defined.

(** C2 at the class [User], saved through a driver that changes no row: the
    name has no value and no default, the age takes its default, and the key
    comes last. *)
Lemma insert_binds_in_declaration_order_witness :
  ∃ s, schema_of (ModelMetaclass_new "User" User_attrs world0).1 = Some s ∧
       is_dict (User_attrs (G:=nat)) ∧
       __insert__ s = "insert into `User` (`name`,`age`, `id`) values (?,?,?)" ∧
       bound example_attr s (ordinary_fields (User_attrs (G:=nat)) ++ [__primary_key__ s])
         ({["id" := VStr "u1"]}, world0) = [VNone; VInt 0; VStr "u1"] ∧
       (save no_rows example_attr s ({["id" := VStr "u1"]}, world0)).1 = inr ().
Proof.
  destruct (schema_of (ModelMetaclass_new "User" User_attrs world0).1) as [s|] eqn:Hs;
    [|by vm_compute in Hs].
  assert (is_dict (User_attrs (G:=nat))) as Hd by is_dict_list.
  exists s. split; [done|]. split; [done|].
  destruct (insert_binds_in_declaration_order no_rows example_attr "User" User_attrs world0 s
              {["id" := VStr "u1"]} world0 Hs Hd) as (Hi & _ & _ & _ & Hsave & Hst).
  vm_compute in Hs. injection Hs as <-.
  split; [exact Hi|]. split; [|exact Hsave].
  rewrite Hst; [vm_compute; reflexivity|]. no_class_attr.
Defined.

(** C3 fails as it is written: the field [name] of this class declares the
    column [user_name], which the update statement uses, but the select and
    the insert statement have the name of the attribute instead, and the
    delete statement has neither. *)
Lemma select_and_insert_ignore_declared_name :
  ∃ s f,
    schema_of (ModelMetaclass_new "Account" Account_attrs world0).1 = Some s ∧
    ("name", AField f) ∈ Account_attrs (G:=nat) ∧ primary_key f = false ∧
    column_name "name" f = "user_name" ∧
    __select__ s = "select `id`, `name` from `accounts`" ∧
    __insert__ s = "insert into `accounts` (`name`, `id`) values (?,?)" ∧
    __delete__ s = "delete from `accounts` where `id`=?" ∧
    refers_to (__update__ s) (column_name "name" f) ∧
    ¬ refers_to (__select__ s) (column_name "name" f) ∧
    ¬ refers_to (__insert__ s) (column_name "name" f) ∧
    ¬ refers_to (__delete__ s) (column_name "name" f).
Proof.
  eexists _, _. split; [vm_compute; reflexivity|].
  split; [in_list|]. unfold refers_to.
  repeat split; try (vm_compute; congruence).
Qed.

(** C3 as the code has it, at the field [name] of the class [Account]. *)
Lemma statements_refer_to_columns_witness :
  ∃ s f,
    schema_of (ModelMetaclass_new "Account" Account_attrs world0).1 = Some s ∧
    ("name", AField f) ∈ Account_attrs (G:=nat) ∧
    refers_to (__update__ s) "user_name" ∧
    __delete__ s = "delete from `accounts` where `id`=?".
Proof.
  destruct (schema_of (ModelMetaclass_new "Account" Account_attrs world0).1) as [s|] eqn:Hs;
    [|by vm_compute in Hs].
  assert (is_dict (Account_attrs (G:=nat))) as Hd by is_dict_list.
  exists s, (StringField (Some "user_name") false (DVal VNone) "varchar(100)").
  assert (("name", AField (StringField (Some "user_name") false (DVal VNone) "varchar(100)"))
            ∈ Account_attrs (G:=nat)) as Hin by in_list.
  split; [done|]. split; [done|].
  destruct (statements_refer_to_columns "Account" Account_attrs world0 s "name" _
              Hs Hd Hin eq_refl) as (Hu & _ & Hdel).
  vm_compute in Hs. injection Hs as <-.
  split; [exact Hu|exact Hdel].
Defined.

(** C4 at the class [User]. *)
Lemma update_and_delete_statements_witness :
  ∃ s, schema_of (ModelMetaclass_new "User" User_attrs world0).1 = Some s ∧
       __update__ s = "update `User` set `name`=?,`age`=? where `id`=?" ∧
       __delete__ s = "delete from `User` where `id`=?".
Proof.
  destruct (schema_of (ModelMetaclass_new "User" User_attrs world0).1) as [s|] eqn:Hs;
    [|by vm_compute in Hs].
  assert (is_dict (User_attrs (G:=nat))) as Hd by is_dict_list.
  exists s. split; [done|].
  destruct (update_and_delete_statements "User" User_attrs world0 s Hs Hd) as [_ Hex].
  specialize (Hex eq_refl).
  vm_compute in Hs. injection Hs as <-. exact Hex.
Defined.

(** C10 at the class [Tag], whose only field is its key. *)
Lemma primary_key_only_witness :
  ∃ attrs' s,
    (ModelMetaclass_new "Tag" Tag_attrs world0).1 = inr (MappedClass "Tag" attrs' s) ∧
    __select__ s = "select `id`,  from `" +:+ __table__ s +:+ "`" ∧
    __insert__ s = "insert into `" +:+ __table__ s +:+ "` (, `id`) values (?)".
Proof.
  apply (primary_key_only "Tag" Tag_attrs world0 "id");
    [done | repeat constructor; done | reflexivity | reflexivity].
Defined.

(** C6 fails as it is written: the default of [token] is a callable, so the
    field has a default, but its first result is [None], which the instance
    holds like no value at all; the second read calls it again and gets 5. *)
Lemma default_read_not_stable :
  ∃ s field,
    schema_of (ModelMetaclass_new "Session" Session_attrs world0).1 = Some s ∧
    __mappings__ s !! "token" = Some field ∧ f_default field ≠ DVal VNone ∧
    example_attr s "token" = None ∧
    stored (∅ : Dict) "token" = VNone ∧
    let r1 := getValueOrDefault example_attr s "token" (∅, world0) in
    let r2 := getValueOrDefault example_attr s "token" r1.2 in
    r1.1 = inr VNone ∧ r2.1 = inr (VInt 5) ∧ r1.1 ≠ r2.1.
Proof.
  eexists _, _. split; [vm_compute; reflexivity|].
  split; [vm_compute; reflexivity|].
  split; [discriminate|]. split; [reflexivity|]. split; [reflexivity|].
  split; [vm_compute; reflexivity|].
  split; [vm_compute; reflexivity|].
  vm_compute. discriminate.
Qed.

(** C6 as the code has it, at the key of [Order], whose default is the
    counter: the first read gives 0, and so does a read after two others. *)
Lemma default_read_is_stable_witness :
  ∃ s,
    schema_of (ModelMetaclass_new "Order" Order_attrs world0).1 = Some s ∧
    let σ1 := (getValueOrDefault example_attr s "id" (∅, world0)).2 in
    σ1.1 !! "id" = Some (VInt 0) ∧
    let self2 := (reads example_attr s ["note"; "id"] σ1).1 in
    getValueOrDefault example_attr s "id" (self2, world0) = (inr (VInt 0), (self2, world0)).
Proof.
  eexists. split; [vm_compute; reflexivity|].
  match goal with |- context [getValueOrDefault _ ?s _ _] =>
    destruct (default_read_is_stable (DB:=unit) example_attr s "id"
                (StringField None true (DCall next_id) "varchar(50)")
                ∅ world0 (VInt 0) (getValueOrDefault example_attr s "id" (∅, world0)).2)
      as [Ha Hb]
  end;
    [reflexivity | reflexivity | vm_compute; reflexivity | discriminate
    | vm_compute; reflexivity | discriminate |].
  split; [exact Ha|exact (Hb ["note"; "id"] world0)].
Defined.

(** C7 fails on the code for a field that has the name of a method: the
    class [Cart] declares the field [items] with the default ["n/a"], and
    [getattr] finds the method [items] of [dict] before the item.  So
    [getValueOrDefault] returns the method, not the stored value ["x"], and
    for an instance without the item it returns the method as well, without
    resolving the default, storing or logging anything. *)
Lemma items_field_returns_method :
  ∃ s field,
    schema_of (ModelMetaclass_new "Cart" Cart_attrs world0).1 = Some s ∧
    __mappings__ s !! "items" = Some field ∧ f_default field = DVal (VStr "n/a") ∧
    example_attr s "items" = Some (VObj "<bound method items>") ∧
    getValueOrDefault example_attr s "items" ({["items" := VStr "x"]}, world0)
      = (inr (VObj "<bound method items>"), ({["items" := VStr "x"]}, world0)) ∧
    getValueOrDefault example_attr s "items" (∅, world0)
      = (inr (VObj "<bound method items>"), (∅, world0)).
Proof.
  eexists _, _. split; [vm_compute; reflexivity|].
  split; [vm_compute; reflexivity|].
  repeat split; vm_compute; reflexivity.
Qed.

(** C8 fails on the code for a class with a field named [self]: the
    driver returns one row with the columns of the class, and making the
    instance of it raises [TypeError] instead of giving the instance. *)
Lemma find_raises_for_column_self :
  ∃ s,
    schema_of (ModelMetaclass_new "Mirror" Mirror_attrs world0).1 = Some s ∧
    __select__ s = "select `id`, `self` from `Mirror`" ∧
    (select self_row (__select__ s +:+ " where `" +:+ __primary_key__ s +:+ "`=?")
       [VStr "a"] (Some 1%nat) world0).1 = inr [{["id" := VStr "a"; "self" := VStr "me"]}] ∧
    (find self_row s (VStr "a") world0).1 = inl TypeError.
Proof.
  eexists. split; [vm_compute; reflexivity|].
  repeat split; vm_compute; reflexivity.
Qed.

(** C9 with a driver that reports no affected row. *)
Lemma save_tolerates_anomaly_witness :
  ∃ s,
    schema_of (ModelMetaclass_new "Order" Order_attrs world0).1 = Some s ∧
    (save no_rows example_attr s (∅, world0)).1 = inr () ∧
    last (w_log (save no_rows example_attr s (∅, world0)).2.2) =
      Some (WARNING, "failded to insert record: affected rows: 0").
Proof.
  eexists. split; [vm_compute; reflexivity|].
  match goal with |- context [save _ _ ?s _] => set (cls := s) end.
  assert (schema_of (ModelMetaclass_new "Order" Order_attrs world0).1 = Some cls) as Hs
    by (vm_compute; reflexivity).
  assert (is_dict Order_attrs) as Hd by is_dict_list.
  pose (keys := __fields__ cls ++ [__primary_key__ cls]).
  pose (σ1 := reads example_attr cls keys (∅, world0)).
  pose (args := bound example_attr cls keys (∅, world0)).
  assert (execute no_rows (__insert__ cls) args σ1.2
          = (inr 0, (execute no_rows (__insert__ cls) args σ1.2).2)) as Hexec
    by (vm_compute; reflexivity).
  pose proof (save_tolerates_anomaly no_rows example_attr "Order" Order_attrs world0 cls
                ∅ world0 Hs Hd 0 _ Hexec ltac:(discriminate)) as Hsave.
  rewrite Hsave. split; vm_compute; reflexivity.
Defined.

(** * The further properties at concrete classes *)

Ltac plain_names_list :=
  split; [reflexivity|];
  let k := fresh "k" in let v := fresh "v" in let Hin := fresh "Hin" in
  intros k v Hin;
  repeat (apply elem_of_cons in Hin as [[= -> ->]|Hin];
          [split; [reflexivity|intros ? [= <-]; reflexivity]|]);
  by apply elem_of_nil in Hin.

Ltac not_declared Hin :=
  repeat (apply elem_of_cons in Hin as [Hin|Hin]; [discriminate Hin|]);
  by apply elem_of_nil in Hin.

(** X1 at a statement with one placeholder. *)
Lemma replace_placeholder_translates_all_witness :
  replace_placeholder "select `id` from `t`" = "select `id` from `t`" ∧
  replace_placeholder ("select `id` from `t` where `n`=" +:+ "?" +:+ " limit 1")
    = replace_placeholder "select `id` from `t` where `n`=" +:+ "%s"
        +:+ replace_placeholder " limit 1".
Proof.
  split.
  - exact (proj1 (replace_placeholder_translates_all "select `id` from `t`") eq_refl).
  - exact (proj1 (proj2 (replace_placeholder_translates_all
                           "select `id` from `t` where `n`=")) " limit 1").
Defined.

(** X2 at the class [User]. *)
Lemma statements_count_placeholders_witness :
  ∃ s, schema_of (ModelMetaclass_new "User" User_attrs world0).1 = Some s ∧
       count_char "?" (__select__ s) = 0%nat ∧
       count_char "?" (__insert__ s) = 3%nat ∧
       count_char "?" (__update__ s) = 3%nat ∧
       count_char "?" (__delete__ s) = 1%nat.
Proof.
  destruct (schema_of (ModelMetaclass_new "User" User_attrs world0).1) as [s|] eqn:Hs;
    [|by vm_compute in Hs].
  assert (is_dict (User_attrs (G:=nat))) as Hd by is_dict_list.
  assert (plain_names "User" (User_attrs (G:=nat))) as Hn by plain_names_list.
  exists s. split; [done|].
  exact (statements_count_placeholders "User" User_attrs world0 s Hs Hd Hn).
Defined.

(** X3 at the class [User], with a driver that has lost its connection. *)
Lemma find_asks_driver_witness :
  ∃ s, schema_of (ModelMetaclass_new "User" User_attrs world0).1 = Some s ∧
       (find lost_connection s (VStr "u1") world0).1
       = inl (DriverError "Lost connection to MySQL server").
Proof.
  destruct (schema_of (ModelMetaclass_new "User" User_attrs world0).1) as [s|] eqn:Hs;
    [|by vm_compute in Hs].
  assert (plain_names "User" (User_attrs (G:=nat))) as Hn by plain_names_list.
  exists s. split; [done|].
  exact (find_asks_driver lost_connection "User" User_attrs world0 s (VStr "u1") world0 Hs Hn).
Defined.

(** X4 at the class [User], with a driver that has lost its connection. *)
Lemma save_asks_driver_witness :
  ∃ s, schema_of (ModelMetaclass_new "User" User_attrs world0).1 = Some s ∧
       (save lost_connection example_attr s (∅, world0)).1
       = inl (DriverError "Lost connection to MySQL server").
Proof.
  destruct (schema_of (ModelMetaclass_new "User" User_attrs world0).1) as [s|] eqn:Hs;
    [|by vm_compute in Hs].
  assert (is_dict (User_attrs (G:=nat))) as Hd by is_dict_list.
  assert (plain_names "User" (User_attrs (G:=nat))) as Hn by plain_names_list.
  exists s. split; [done|].
  exact (save_asks_driver lost_connection example_attr "User" User_attrs world0 s ∅ world0
           Hs Hd Hn).
Defined.

(** X5 with a driver that finds two rows, and the size 1. *)
Lemma select_limits_rows_witness :
  ∃ rs,
    (select two_rows "select `id` from `t` where `n`=?" [VInt 1] (Some 1%nat) world0).1
      = inr rs ∧
    rs `prefix_of` [{["id" := VStr "a"]}; {["id" := VStr "b"]}] ∧
    length rs = 1%nat ∧
    last (w_log (select two_rows "select `id` from `t` where `n`=?" [VInt 1]
                   (Some 1%nat) world0).2)
      = Some (INFO, "rows returned: " +:+ pretty (length rs)).
Proof.
  exact (select_limits_rows two_rows "select `id` from `t` where `n`=?" [VInt 1]
           (Some 1%nat) world0
           {| cur_rows := [{["id" := VStr "a"]}; {["id" := VStr "b"]}]; rowcount := 2 |}
           () eq_refl).
Defined.

(** X6 with a driver that has lost its connection. *)
Lemma driver_error_propagates_witness :
  (select lost_connection "select 1" [] None world0).1
    = inl (DriverError "Lost connection to MySQL server") ∧
  execute lost_connection "delete from `t`" [] world0
    = (inl (DriverError "Lost connection to MySQL server"),
       {| w_gen := 0%nat; w_db := (); w_log := [(INFO, "SQL: delete from `t`")] |}).
Proof.
  split.
  - by rewrite (proj1 (driver_error_propagates lost_connection "select 1" [] None world0
                         (DriverError "Lost connection to MySQL server") () eq_refl)).
  - exact (proj2 (driver_error_propagates lost_connection "delete from `t`" [] None world0
                    (DriverError "Lost connection to MySQL server") () eq_refl)).
Defined.

(** X7 at the classes [User], which declares no table, and [Account]. *)
Lemma table_defaults_to_class_name_witness :
  ∃ s1 s2,
    schema_of (ModelMetaclass_new "User" User_attrs world0).1 = Some s1 ∧
    schema_of (ModelMetaclass_new "Account" Account_attrs world0).1 = Some s2 ∧
    __table__ s1 = "User" ∧ __table__ s2 = "accounts".
Proof.
  destruct (schema_of (ModelMetaclass_new "User" User_attrs world0).1) as [s1|] eqn:Hs1;
    [|by vm_compute in Hs1].
  destruct (schema_of (ModelMetaclass_new "Account" Account_attrs world0).1) as [s2|] eqn:Hs2;
    [|by vm_compute in Hs2].
  assert (is_dict (User_attrs (G:=nat))) as Hd1 by is_dict_list.
  assert (is_dict (Account_attrs (G:=nat))) as Hd2 by is_dict_list.
  exists s1, s2. split; [done|]. split; [done|]. split.
  - apply (proj1 (table_defaults_to_class_name "User" User_attrs world0 s1 Hs1 Hd1)).
    apply (bool_decide_unpack _). vm_compute. exact I.
  - apply (proj2 (proj2 (table_defaults_to_class_name "Account" Account_attrs world0 s2
                           Hs2 Hd2)) "accounts"); [in_list|done].
Defined.

(** X8 at the class [User]. *)
Lemma mappings_hold_declared_fields_witness :
  ∃ s, schema_of (ModelMetaclass_new "User" User_attrs world0).1 = Some s ∧
       __mappings__ s !! "age"
         = Some (Field_init "IntegerField" None "bigint" false (DVal (VInt 0))) ∧
       (__primary_key__ s ∉ __fields__ s) ∧
       (is_Some (__mappings__ s !! "name") ↔
          "name" = __primary_key__ s ∨ "name" ∈ __fields__ s).
Proof.
  destruct (schema_of (ModelMetaclass_new "User" User_attrs world0).1) as [s|] eqn:Hs;
    [|by vm_compute in Hs].
  assert (is_dict (User_attrs (G:=nat))) as Hd by is_dict_list.
  exists s. split; [done|].
  destruct (mappings_hold_declared_fields "User" User_attrs world0 s Hs Hd) as (H1 & H2 & H3).
  split; [apply H1; in_list|]. split; [exact H2|].
  apply H3. repeat constructor; done.
Defined.

(** X10 at the class [User]. *)
Lemma schema_follows_declarations_witness :
  ∃ s, schema_of (ModelMetaclass_new "User" User_attrs world0).1 = Some s ∧
       __fields__ s = ["name"; "age"] ∧
       __primary_key__ s ∈ ["id"] ∧
       __select__ s =
         "select `" +:+ __primary_key__ s +:+ "`, " +:+ join "," (map escape (__fields__ s))
           +:+ " from `" +:+ __table__ s +:+ "`".
Proof.
  destruct (schema_of (ModelMetaclass_new "User" User_attrs world0).1) as [s|] eqn:Hs;
    [|by vm_compute in Hs].
  exists s. split; [done|].
  exact (schema_follows_declarations "User" User_attrs world0 s Hs).
Defined.

(** X11 at the class [Ghost], whose key has the empty name. *)
Lemma empty_named_key_is_not_found_witness :
  (ModelMetaclass_new "Ghost" Ghost_attrs world0).1
  = inl (RuntimeError "Primary key not found.").
Proof.
  apply (empty_named_key_is_not_found "Ghost" Ghost_attrs world0); [done|].
  intros k Hk. change (k ∈ [""]) in Hk. by apply list_elem_of_singleton in Hk.
Defined.

(** X12 at an instance that holds an [id]. *)
Lemma setattr_then_getattr_witness :
  (__setattr__ "name" VNone;; __getattr__ "name") ({["id" := VStr "a"]}, world0)
    = (inr VNone, (<["name" := VNone]> {["id" := VStr "a"]}, world0)) ∧
  ((__setattr__ "name" VNone;; __getattr__ "id") ({["id" := VStr "a"]}, world0)).1
    = (__getattr__ "id" ({["id" := VStr "a"]}, world0)).1.
Proof.
  split.
  - exact (proj1 (setattr_then_getattr "name" VNone {["id" := VStr "a"]} world0)).
  - exact (proj1 (proj2 (setattr_then_getattr "name" VNone {["id" := VStr "a"]} world0)
                    "id" ltac:(discriminate))).
Defined.

(** X13 at an instance of [User] that holds an [id]: no [name], and the key
    of the class under [__primary_key__]. *)
Lemma getValue_never_raises_witness :
  ∃ s, schema_of (ModelMetaclass_new "User" User_attrs world0).1 = Some s ∧
       getValue example_attr s "name" ({["id" := VStr "a"]}, world0)
         = (inr VNone, ({["id" := VStr "a"]}, world0)) ∧
       getValue example_attr s "__primary_key__" ({["id" := VStr "a"]}, world0)
         = (inr (VStr "id"), ({["id" := VStr "a"]}, world0)) ∧
       __getattr__ "name" ({["id" := VStr "a"]}, world0)
         = (inl (AttributeError "'Model' object has no attribute 'name'"),
            ({["id" := VStr "a"]}, world0)).
Proof.
  eexists. split; [vm_compute; reflexivity|].
  match goal with |- context [getValue _ ?s _ _] => set (cls := s) end.
  split; [|split].
  - exact (proj1 (getValue_never_raises example_attr cls "name" {["id" := VStr "a"]} world0)).
  - exact (proj1 (getValue_never_raises example_attr cls "__primary_key__"
                    {["id" := VStr "a"]} world0)).
  - exact (proj2 (getValue_never_raises example_attr cls "name" {["id" := VStr "a"]} world0)
             eq_refl).
Defined.

(** X14 at the class [User], which declares no [email]. *)
Lemma getValueOrDefault_undeclared_witness :
  ∃ s, schema_of (ModelMetaclass_new "User" User_attrs world0).1 = Some s ∧
       getValueOrDefault example_attr s "email" (∅, world0)
         = (inl (KeyError "email"), (∅, world0)) ∧
       getValueOrDefault example_attr s "email" ({["email" := VStr "a@b"]}, world0)
         = (inr (VStr "a@b"), ({["email" := VStr "a@b"]}, world0)).
Proof.
  destruct (schema_of (ModelMetaclass_new "User" User_attrs world0).1) as [s|] eqn:Hs;
    [|by vm_compute in Hs].
  assert (∀ f, ("email", AField f) ∉ User_attrs (G:=nat)) as Hno.
  { intros f Hin. not_declared Hin. }
  exists s. split; [done|]. split.
  - exact (getValueOrDefault_undeclared example_attr "User" User_attrs world0 s "email"
             ∅ world0 Hs Hno eq_refl).
  - exact (getValueOrDefault_undeclared example_attr "User" User_attrs world0 s "email"
             {["email" := VStr "a@b"]} world0 Hs Hno eq_refl).
Defined.

(** X15 at the field [name] of the class [User], which has no default. *)
Lemma getValueOrDefault_without_default_witness :
  ∃ s, schema_of (ModelMetaclass_new "User" User_attrs world0).1 = Some s ∧
       getValueOrDefault example_attr s "name" (∅, world0) = (inr VNone, (∅, world0)).
Proof.
  eexists. split; [vm_compute; reflexivity|].
  match goal with |- context [getValueOrDefault _ ?s _ _] => set (cls := s) end.
  exact (getValueOrDefault_without_default (DB:=unit) example_attr cls "name"
           (StringField None false (DVal VNone) "varchar(100)") ∅ world0
           eq_refl eq_refl eq_refl (or_introl eq_refl)).
Defined.

(** X16 at the key of the class [Order], which takes the counter. *)
Lemma getValue_after_getValueOrDefault_witness :
  ∃ s, schema_of (ModelMetaclass_new "Order" Order_attrs world0).1 = Some s ∧
       (getValueOrDefault example_attr s "id" (∅, world0)).1 = inr (VInt 0) ∧
       getValue example_attr s "id" (getValueOrDefault example_attr s "id" (∅, world0)).2
         = (inr (VInt 0), (getValueOrDefault example_attr s "id" (∅, world0)).2).
Proof.
  eexists. split; [vm_compute; reflexivity|].
  match goal with |- context [getValueOrDefault _ ?s _ _] => set (cls := s) end.
  assert ((getValueOrDefault example_attr cls "id" (∅, world0)).1 = inr (VInt 0)) as Hv
    by (vm_compute; reflexivity).
  split; [exact Hv|].
  exact (getValue_after_getValueOrDefault example_attr cls "id" (∅, world0) (VInt 0)
           ltac:(discriminate) Hv).
Defined.

(** X17 with a driver that reports one affected row. *)
Lemma save_of_one_row_witness :
  ∃ s,
    schema_of (ModelMetaclass_new "Order" Order_attrs world0).1 = Some s ∧
    (save one_row_affected example_attr s (∅, world0)).1 = inr () ∧
    last (w_log (save one_row_affected example_attr s (∅, world0)).2.2) =
      Some (INFO, "SQL: insert into `Order` (`note`, `id`) values (?,?)").
Proof.
  eexists. split; [vm_compute; reflexivity|].
  match goal with |- context [save _ _ ?s _] => set (cls := s) end.
  assert (schema_of (ModelMetaclass_new "Order" Order_attrs world0).1 = Some cls) as Hs
    by (vm_compute; reflexivity).
  assert (is_dict Order_attrs) as Hd by is_dict_list.
  pose (keys := __fields__ cls ++ [__primary_key__ cls]).
  pose (σ1 := reads example_attr cls keys (∅, world0)).
  pose (args := bound example_attr cls keys (∅, world0)).
  assert (execute one_row_affected (__insert__ cls) args σ1.2
          = (inr 1, (execute one_row_affected (__insert__ cls) args σ1.2).2)) as Hexec
    by (vm_compute; reflexivity).
  pose proof (save_of_one_row one_row_affected example_attr "Order" Order_attrs world0 cls
                ∅ world0 Hs Hd _ Hexec) as Hsave.
  rewrite Hsave. split; vm_compute; reflexivity.
Defined.

(** X18 at an [Order] that holds its key and an item of its own. *)
Lemma save_keeps_stored_values_witness :
  ∃ s,
    schema_of (ModelMetaclass_new "Order" Order_attrs world0).1 = Some s ∧
    let self1 := (save no_rows example_attr s
                    ({["id" := VStr "o1"; "extra" := VInt 7]}, world0)).2.1 in
    self1 !! "id" = Some (VStr "o1") ∧ self1 !! "extra" = Some (VInt 7).
Proof.
  destruct (schema_of (ModelMetaclass_new "Order" Order_attrs world0).1) as [s|] eqn:Hs;
    [|by vm_compute in Hs].
  assert (is_dict Order_attrs) as Hd by is_dict_list.
  exists s. split; [done|].
  destruct (save_keeps_stored_values no_rows example_attr "Order" Order_attrs world0 s
              {["id" := VStr "o1"; "extra" := VInt 7]} world0 Hs Hd) as [H1 H2].
  split.
  - apply H1; [vm_compute; reflexivity|discriminate|discriminate].
  - apply (H1 "extra" (VInt 7)); [vm_compute; reflexivity|discriminate|discriminate].
Defined.

(** X19 without any setting, and with a user only. *)
Lemma create_pool_requires_credentials_witness :
  create_pool pool_of_args ∅ process0
    = (inl (KeyError "user"),
       {| __pool := None; p_log := [(INFO, "create database connection pool...")] |}) ∧
  create_pool pool_of_args {["user" := VStr "www"]} process0
    = (inl (KeyError "password"),
       {| __pool := None; p_log := [(INFO, "create database connection pool...")] |}).
Proof.
  split.
  - exact (proj1 (create_pool_requires_credentials pool_of_args ∅ process0) eq_refl).
  - exact (proj1 (proj2 (create_pool_requires_credentials pool_of_args
                           {["user" := VStr "www"]} process0))
             (mk_is_Some _ _ eq_refl) eq_refl).
Defined.

(** X20 with the settings of [settings]: the port is the given one, the
    other optional settings are the defaults. *)
Lemma create_pool_binds_pool_witness :
  create_pool pool_of_args settings process0
  = (inr (),
     {| __pool := Some {| host := VStr "localhost"; port := VInt 3307;
                          user := VStr "www"; password := VStr "secret";
                          db := VStr "awesome"; charset := VStr "utf8";
                          autocommit := VBool true; maxsize := VInt 10;
                          minsize := VInt 1 |};
        p_log := [(INFO, "create database connection pool...")] |}).
Proof.
  exact (create_pool_binds_pool pool_of_args settings process0
           (VStr "www") (VStr "secret") (VStr "awesome") eq_refl eq_refl eq_refl).
Defined.

(** X21 at the class [Order]: a stored key is returned; an unset key takes
    the counter, which moves from 0 to 1, so the callable ran once; an unset
    note takes the constant and leaves the counter alone. *)
Lemma getValueOrDefault_of_item_witness :
  ∃ s,
    schema_of (ModelMetaclass_new "Order" Order_attrs world0).1 = Some s ∧
    getValueOrDefault example_attr s "id" ({["id" := VStr "a"]}, world0) =
      (inr (VStr "a"), ({["id" := VStr "a"]}, world0)) ∧
    getValueOrDefault example_attr s "id" (∅, world0) =
      (inr (VInt 0), ({["id" := VInt 0]}, resolved "id" (VInt 0) 1%nat world0)) ∧
    getValueOrDefault example_attr s "note" (∅, world0) =
      (inr (VStr "n/a"), ({["note" := VStr "n/a"]}, resolved "note" (VStr "n/a") 0%nat world0)).
Proof.
  eexists. split; [vm_compute; reflexivity|].
  match goal with |- context [getValueOrDefault _ ?s _ _] => set (cls := s) end.
  split; [|split].
  - apply (proj1 (getValueOrDefault_of_item example_attr cls "id" {["id" := VStr "a"]} world0
                    eq_refl));
      [vm_compute; reflexivity | discriminate].
  - exact (proj2 (getValueOrDefault_of_item example_attr cls "id" ∅ world0 eq_refl)
             (StringField None true (DCall next_id) "varchar(50)")
             (or_introl eq_refl) eq_refl).
  - exact (proj2 (getValueOrDefault_of_item example_attr cls "note" ∅ world0 eq_refl)
             (StringField None false (DVal (VStr "n/a")) "varchar(100)")
             (or_introl eq_refl) eq_refl).
Defined.

(** X22 at the class [Cart], whose field [items] has the name of a method,
    and at the class [Digest], whose field [__hash__] is resolved although
    the instance stores a value for it. *)
Lemma class_attribute_hides_item_witness :
  (∃ s,
     schema_of (ModelMetaclass_new "Cart" Cart_attrs world0).1 = Some s ∧
     getValue example_attr s "items" ({["items" := VStr "x"]}, world0)
       = (inr (VObj "<bound method items>"), ({["items" := VStr "x"]}, world0)) ∧
     getValueOrDefault example_attr s "items" ({["items" := VStr "x"]}, world0)
       = (inr (VObj "<bound method items>"), ({["items" := VStr "x"]}, world0))) ∧
  (∃ s,
     schema_of (ModelMetaclass_new "Digest" Digest_attrs world0).1 = Some s ∧
     getValueOrDefault example_attr s "__hash__" ({["__hash__" := VStr "x"]}, world0)
       = (inr (VStr "h"),
          (<["__hash__" := VStr "h"]> {["__hash__" := VStr "x"]},
           resolved "__hash__" (VStr "h") 0%nat world0))).
Proof.
  split.
  - eexists. split; [vm_compute; reflexivity|].
    match goal with |- context [getValue _ ?s _ _] => set (cls := s) end.
    exact (proj1 (class_attribute_hides_item example_attr cls "items"
                    {["items" := VStr "x"]} world0)
             (VObj "<bound method items>") eq_refl ltac:(discriminate)).
  - eexists. split; [vm_compute; reflexivity|].
    match goal with |- context [getValueOrDefault _ ?s _ _] => set (cls := s) end.
    exact (proj2 (class_attribute_hides_item example_attr cls "__hash__"
                    {["__hash__" := VStr "x"]} world0)
             (StringField None false (DVal (VStr "h")) "varchar(100)") (VStr "h")
             eq_refl eq_refl eq_refl ltac:(discriminate)).
Defined.

Example create_args_string_3 : create_args_string 3 = "?,?,?".
Proof. reflexivity. Qed.

Example py_str_int : py_str (VInt (-12)) = "-12".
Proof. vm_compute. reflexivity. Qed.
